(** * FunctionalPlus, [fplus/show.hpp]: rendering values as text

    A shallow embedding of the functions of [include/fplus/show.hpp] and the
    properties of their results.

    Conventions of the embedding:
    - [std::string] is [string]; [std::string::size] is [size];
    - [std::size_t] is [N], with the 64-bit wrap-around of its arithmetic
      written out ([size_t_wrap]);
    - a container is the list of its elements in iteration order;
    - [double] is [spec_float], the IEEE 754 values of the standard library;
    - what a type offers to [operator<<] of an output stream is the class
      [Streamable]; the overload set of [show] is the class [Show]. *)

From Stdlib Require Import NArith ZArith Lia List Bool Ascii String.
From Stdlib Require Import Decimal DecimalString DecimalN DecimalPos.
From Stdlib Require Import SpecFloat.
Import ListNotations.

Local Open Scope string_scope.
Local Open Scope N_scope.

(** ** Machine integers *)

Module SizeT.

(** One more than [SIZE_MAX] of a 64-bit target. *)
Definition modulus : N := 2 ^ 64.

(** The value a [std::size_t] holds after an arithmetic result [n]. *)
Definition size_t_wrap (n : N) : N := n mod modulus.

(** [static_cast<int>(n)] for a [std::size_t] [n]: the low 32 bits, read
    in two's complement. *)
Definition static_cast_int (n : N) : Z :=
  let low := (Z.of_N n mod 2 ^ 32)%Z in
  if (low <? 2 ^ 31)%Z then low else (low - 2 ^ 32)%Z.

End SizeT.
Export SizeT.

(** ** Strings *)

(** [s.size()] *)
Definition size (s : string) : N := N.of_nat (String.length s).

(** [std::string(n, c)]: [n] copies of [c]. *)
Fixpoint string_fill (n : nat) (c : ascii) : string :=
  match n with
  | O => EmptyString
  | S n' => String c (string_fill n' c)
  end.

Definition string_n (n : N) (c : ascii) : string := string_fill (N.to_nat n) c.

(** ** Collaborators from other headers of the library *)

(** Modelled from the spec: [join] of [fplus/container_common.hpp], the
    string-join-with-separator primitive: the elements in order with the
    separator between every two neighbours, the empty string for no
    element. *)
Fixpoint join (separator : string) (xs : list string) : string :=
  match xs with
  | [] => EmptyString
  | [x] => x
  | x :: rest => x ++ separator ++ join separator rest
  end.

(** Modelled from the spec: [fill_left] of [fplus/container_common.hpp]: a
    string of at least [min_size] characters is returned unchanged, a
    shorter one gets [min_size - length] copies of the filler in front. *)
Definition fill_left (x : ascii) (min_size : N) (xs : string) : string :=
  if min_size <=? size xs then xs
  else string_n (min_size - size xs) x ++ xs.

(** Modelled from the spec: [fill_right] of [fplus/container_common.hpp],
    as [fill_left] with the copies of the filler at the end. *)
Definition fill_right (x : ascii) (min_size : N) (xs : string) : string :=
  if min_size <=? size xs then xs
  else xs ++ string_n (min_size - size xs) x.

(** Modelled from the spec: [maybe<T>] of [fplus/maybe.hpp], an opaque
    optional value with an emptiness check and an unchecked payload
    access. *)
Inductive maybe (T : Type) : Type :=
| nothing : maybe T
| just : T -> maybe T.
Arguments nothing {T}.
Arguments just {T} _.

Definition is_nothing {T} (m : maybe T) : bool :=
  match m with nothing => true | just _ => false end.

(** The unchecked access has no value on [nothing]: [None] stands for the
    broken precondition. *)
Definition unsafe_get_just {T} (m : maybe T) : option T :=
  match m with nothing => None | just v => Some v end.

(** Modelled from the spec: [result<Ok, Error>] of [fplus/result.hpp], an
    opaque outcome with a tag check and unchecked payload accesses. *)
Inductive result (Ok Error : Type) : Type :=
| ok : Ok -> result Ok Error
| error : Error -> result Ok Error.
Arguments ok {Ok Error} _.
Arguments error {Ok Error} _.

Definition is_error {Ok Error} (r : result Ok Error) : bool :=
  match r with ok _ => false | error _ => true end.

Definition unsafe_get_ok {Ok Error} (r : result Ok Error) : option Ok :=
  match r with ok v => Some v | error _ => None end.

Definition unsafe_get_error {Ok Error} (r : result Ok Error) : option Error :=
  match r with ok _ => None | error e => Some e end.

(** ** Output streams *)

(** Decimal digits of a natural number, most significant first, ["0"] for
    zero. *)
Definition string_of_N (n : N) : string :=
  NilEmpty.string_of_uint (N.to_uint n).

(** [Streamable T]: the characters [ss << x] writes into a fresh
    [std::ostringstream] (default flags, width 0). *)
Class Streamable (T : Type) := stream_out : T -> string.

(** [operator<<] for [int]: decimal, with a minus sign below zero. *)
#[export] Instance stream_int : Streamable Z :=
  fun x => NilEmpty.string_of_int (Z.to_int x).

(** [operator<<] for [std::string]: the characters of the string. *)
#[export] Instance stream_string : Streamable string :=
  fun str => str.

(** *** Fixed notation of floating-point values

    What [stream << std::fixed << std::setprecision(p) << v] writes: the C
    library's ["%.*f"] conversion of the exact binary value, rounded to the
    nearest decimal with [p] fractional digits, ties to even. *)

Definition digit_char (d : N) : ascii :=
  ascii_of_N (48 + d mod 10).

(** The [k] low decimal digits of [n], in front of [acc]. *)
Fixpoint low_digits (k : nat) (n : N) (acc : string) : string :=
  match k with
  | O => acc
  | S k' => low_digits k' (n / 10) (String (digit_char n) acc)
  end.

(** A negative stream precision counts as 6 in the conversion. *)
Definition effective_precision (p : Z) : N :=
  if (p <? 0)%Z then 6 else Z.to_N p.

(** [m * 2^e * 10^p] rounded to the nearest natural number, ties to even. *)
Definition scaled_round (p : N) (m : positive) (e : Z) : N :=
  let num := Npos m * 10 ^ p in
  if (0 <=? e)%Z then num * 2 ^ Z.to_N e
  else
    let den := 2 ^ Z.to_N (- e) in
    let q := num / den in
    let r := num mod den in
    if (den <? 2 * r) || ((2 * r =? den) && N.odd q) then q + 1 else q.

(** The text of [scaled / 10^p] with [p] fractional digits; no decimal
    point at precision 0. *)
Definition fixed_text (p : N) (scaled : N) : string :=
  string_of_N (scaled / 10 ^ p)
  ++ (if p =? 0 then EmptyString
      else String "." (low_digits (N.to_nat p) (scaled mod 10 ^ p) EmptyString)).

Definition sign_text (s : bool) : string := if s then "-" else EmptyString.

Definition fixed_notation (precision : Z) (v : spec_float) : string :=
  let p := effective_precision precision in
  match v with
  | S754_nan => "nan"
  | S754_infinity s => sign_text s ++ "inf"
  | S754_zero s => sign_text s ++ fixed_text p 0
  | S754_finite s m e => sign_text s ++ fixed_text p (scaled_round p m e)
  end.

(** What the template [show_float<T>] needs of [T]: the comparison [x < 0],
    [std::abs], and insertion into a stream in fixed notation. *)
Class Floating (T : Type) := {
  lt_zero : T -> bool;
  std_abs : T -> T;
  stream_fixed : Z -> T -> string
}.

#[export] Instance floating_double : Floating spec_float := {
  lt_zero := fun x => SFltb x (S754_zero false);
  std_abs := SFabs;
  stream_fixed := fixed_notation
}.


(** ** [show] and its overloads

    The overload set of [show] is a class; overload resolution picks the
    most specialised candidate, which the priorities of the instances
    reproduce: the non-template overload for [std::string] and the template
    for [std::pair] come before the primary template. *)
Class Show (T : Type) := show : T -> string.

(** [template <typename T> std::string show(const T& x)]:
    [ss << x; return ss.str();] *)
Definition show_template {T} `{Streamable T} (x : T) : string :=
  let ss := stream_out x in
  ss.

#[export] Instance show_generic {T} `{Streamable T} : Show T | 100 :=
  show_template.

(** [std::string show(const std::string& str)]: string identity. *)
#[export] Instance show_string : Show string | 0 :=
  fun str => str.

(** [std::string show(const std::pair<X, Y>& p)] *)
#[export] Instance show_pair {X Y} `{Show X} `{Show Y} : Show (X * Y) | 0 :=
  fun p => "(" ++ show (fst p) ++ ", " ++ show (snd p) ++ ")".

(** ** Containers *)

Section ShowCont.

Context {T : Type} `{Show T}.

(** [elemStrs.push_back(s)] *)
Definition push_back (elemStrs : list string) (s : string) : list string :=
  elemStrs ++ [s].

(** The loop of the branch [new_line_every_nth_elem == 0], over the
    elements still to visit. *)
Fixpoint collect_plain (xs : list T) (elemStrs : list string)
  : list string :=
  match xs with
  | [] => elemStrs
  | x :: rest => collect_plain rest (push_back elemStrs (show x))
  end.

(** The loop of the other branch, with its counter [i]. *)
Fixpoint collect_wrapped (new_line_every_nth_elem : N) (newline : string)
    (xs : list T) (i : N) (elemStrs : list string) : list string :=
  match xs with
  | [] => elemStrs
  | x :: rest =>
      let elemStrs' :=
        if negb (i =? 0) && (i mod new_line_every_nth_elem =? 0)
        then push_back elemStrs (newline ++ show x)
        else push_back elemStrs (show x) in
      collect_wrapped new_line_every_nth_elem newline rest
        (size_t_wrap (i + 1)) elemStrs'
  end.

Definition show_cont_with_frame_and_newlines
    (separator prefix suffix : string) (xs : list T)
    (new_line_every_nth_elem : N) : string :=
  let elemStrs :=
    if new_line_every_nth_elem =? 0 then collect_plain xs []
    else
      let i := 0 in
      let newline := String "010" EmptyString ++ string_n (size prefix) " " in
      collect_wrapped new_line_every_nth_elem newline xs i [] in
  prefix ++ join separator elemStrs ++ suffix.

Definition show_cont_with_frame (separator prefix suffix : string)
    (xs : list T) : string :=
  show_cont_with_frame_and_newlines separator prefix suffix xs 0.

Definition show_cont_with (separator : string) (xs : list T) : string :=
  show_cont_with_frame separator "[" "]" xs.

Definition show_cont (xs : list T) : string :=
  show_cont_with ", " xs.

End ShowCont.

(** ** Optional and outcome values *)

Definition show_maybe {T} `{Show T} (maybe : maybe T) : option string :=
  if is_nothing maybe then Some "Nothing"
  else
    match unsafe_get_just maybe with
    | Some v => Some ("Just " ++ show v)
    | None => None
    end.

Definition show_result {Ok Error} `{Show Ok} `{Show Error}
    (result : result Ok Error) : option string :=
  if is_error result then
    match unsafe_get_error result with
    | Some e => Some ("Error " ++ show e)
    | None => None
    end
  else
    match unsafe_get_ok result with
    | Some v => Some ("Ok " ++ show v)
    | None => None
    end.

(** ** Numbers in fixed notation and padding *)

Definition show_float {T} `{Floating T}
    (min_left_chars right_char_count : N) (x : T) : string :=
  let is_negative := lt_zero x in
  let min_left_chars_final :=
    if is_negative && (0 <? min_left_chars)
    then min_left_chars - 1
    else min_left_chars in
  let s := stream_fixed (static_cast_int right_char_count) (std_abs x) in
  let min_dest_length :=
    size_t_wrap (min_left_chars_final + 1 + right_char_count) in
  let result := fill_left "0" min_dest_length s in
  if is_negative then "-" ++ result else result.

Definition show_float_fill_left {T} `{Floating T}
    (filler : ascii) (min_size right_char_count : N) (x : T) : string :=
  fill_left filler min_size (show_float 0 right_char_count x).

(** [show<T>(x)] names the template: only the primary template takes part. *)
Definition show_fill_left {T} `{Streamable T}
    (filler : ascii) (min_size : N) (x : T) : string :=
  fill_left filler min_size (show_template x).

Definition show_fill_right {T} `{Streamable T}
    (filler : ascii) (min_size : N) (x : T) : string :=
  fill_right filler min_size (show_template x).

(** ** Sample values *)

(** The [double] nearest to 3.14159, and its opposite. *)
Definition pi_d : spec_float := S754_finite false 7074231776675438 (-51).
Definition neg_pi_d : spec_float := SFopp pi_d.

(** The [double] nearest to 0.142. *)
Definition d_0_142 : spec_float := S754_finite false 5116089176692883 (-55).

(** The [double] nearest to -1e-10. *)
Definition neg_tiny_d : spec_float := S754_finite true 7737125245533627 (-86).

(** The string the specification gives for the wrapped example: five spaces
    after each newline and no separator in front of it. *)
Definition wrapped_example_as_specified : string :=
  "(1,2" ++ String "010" "     3,4" ++ String "010" "     5)".

(** The string the function returns for it: the separator in front of each
    newline, and one space, the length of the prefix, behind it. *)
Definition wrapped_example_as_returned : string :=
  "(1,2," ++ String "010" " 3,4," ++ String "010" " 5)".

(** ** The properties in the words of the specification *)

(** [i] is a positive multiple of [n]. *)
Definition positive_multiple (i n : N) : bool :=
  negb (i =? 0) && (i mod n =? 0).

(** The 0-based indices of a container of [len] elements. *)
Definition indices_from (start len : nat) : list N :=
  map N.of_nat (seq start len).

Section Rendered.

Context {T : Type} `{Show T}.

(** The text of the element at index [i]: its [show], after a newline
    and as many spaces as the prefix has characters when wrapping is on
    and [i] is a positive multiple of [every_n]. *)
Definition rendered_elem (prefix : string) (every_n : N) (i : N) (x : T)
  : string :=
  if negb (every_n =? 0) && positive_multiple i every_n
  then String "010" EmptyString ++ string_n (size prefix) " " ++ show x
  else show x.

Definition rendered_from (prefix : string) (every_n : N) (start : nat)
    (xs : list T) : list string :=
  map (fun ix => rendered_elem prefix every_n (fst ix) (snd ix))
      (combine (indices_from start (List.length xs)) xs).

(** The rendered elements joined with the separator inside the frame. *)
Definition framed (separator prefix suffix : string) (xs : list T)
    (every_n : N) : string :=
  prefix ++ join separator (rendered_from prefix every_n 0 xs) ++ suffix.

End Rendered.

(** The algorithm of [show_float] as the specification words it, on
    [double]. *)
Definition show_float_steps (min_left_digits right_digits : N)
    (x : spec_float) : string :=
  let is_negative := SFltb x (S754_zero false) in
  let effective_min :=
    if is_negative && (0 <? min_left_digits)
    then min_left_digits - 1 else min_left_digits in
  let digits := fixed_notation (Z.of_N right_digits) (SFabs x) in
  let padded := fill_left "0" (effective_min + 1 + right_digits) digits in
  if is_negative then "-" ++ padded else padded.

(** *** Reading a rendered number *)

Definition is_digit (c : ascii) : bool :=
  (48 <=? N_of_ascii c) && (N_of_ascii c <=? 57).

Fixpoint all_digits (s : string) : bool :=
  match s with
  | EmptyString => true
  | String c rest => is_digit c && all_digits rest
  end.

Definition starts_with_minus (s : string) : bool :=
  match s with
  | String c _ => (c =? "-")%char
  | EmptyString => false
  end.

Definition strip_sign (s : string) : string :=
  match s with
  | String c rest => if (c =? "-")%char then rest else s
  | EmptyString => s
  end.

(** The characters in front of the first decimal point. *)
Fixpoint before_point (s : string) : string :=
  match s with
  | EmptyString => EmptyString
  | String c rest =>
      if (c =? ".")%char then EmptyString else String c (before_point rest)
  end.

(** The characters behind the first decimal point; none without a point. *)
Fixpoint after_point (s : string) : string :=
  match s with
  | EmptyString => EmptyString
  | String c rest => if (c =? ".")%char then rest else after_point rest
  end.

(** The digits of the integer part: in front of the point, sign apart. *)
Definition integer_part (s : string) : string := before_point (strip_sign s).

Definition fraction_part (s : string) : string := after_point s.

(** The layout a rendered number is claimed to have: [right_digits] digits
    behind the point and at least [min_left_digits] digits, sign apart, in
    front of it. *)
Definition float_layout (min_left_digits right_digits : N) (out : string)
  : Prop :=
  size (fraction_part out) = right_digits
  /\ all_digits (fraction_part out) = true
  /\ all_digits (integer_part out) = true
  /\ min_left_digits <= size (integer_part out).

Definition is_finite (x : spec_float) : bool :=
  match x with
  | S754_zero _ | S754_finite _ _ _ => true
  | S754_infinity _ | S754_nan => false
  end.

(** The part of a rendered number behind its integer digits: nothing at
    precision 0, else the point and the fractional digits. *)
Definition point_and (r : N) (F : string) : string :=
  if r =? 0 then EmptyString else String "." F.

(** The number of digits the padding of [show_float] reserves in front of
    the point: one less than asked for a negative number. *)
Definition min_left_chars_final (min_left_chars : N) (x : spec_float) : N :=
  if lt_zero x && (0 <? min_left_chars)
  then min_left_chars - 1 else min_left_chars.

(** *** Lines of a wrapped container *)

(** The elements in groups of [n], the last group possibly shorter; [fuel]
    bounds the number of groups. *)
Fixpoint split_every_fuel {T : Type} (fuel n : nat) (xs : list T)
  : list (list T) :=
  match fuel with
  | O => []
  | S fuel' =>
      match xs with
      | [] => []
      | _ :: _ => firstn n xs :: split_every_fuel fuel' n (skipn n xs)
      end
  end.

Definition split_every {T : Type} (n : nat) (xs : list T) : list (list T) :=
  split_every_fuel (List.length xs) n xs.

(** The line break of a wrapped container: a newline and as many spaces as
    the prefix has characters. *)
Definition line_break (prefix : string) : string :=
  String "010" EmptyString ++ string_n (size prefix) " ".

(** Whether a text contains a decimal point. *)
Fixpoint has_point (s : string) : bool :=
  match s with
  | EmptyString => false
  | String c rest => (c =? ".")%char || has_point rest
  end.

(** A pair type with an [operator<<] of its own, as a caller may give one:
    the components with a semicolon between them. *)
Definition stream_pair_sample : Streamable (Z * Z) :=
  fun p => stream_out (fst p) ++ ";" ++ stream_out (snd p).

(** * Proofs *)

(** ** Strings and lists of strings *)

Module Str.

Lemma append_nil_r (s : string) : s ++ EmptyString = s.
Proof. induction s as [|c s IH]; simpl; [reflexivity | now rewrite IH]. Qed.

Lemma append_assoc (a b c : string) : (a ++ b) ++ c = a ++ b ++ c.
Proof. induction a as [|x a IH]; simpl; [reflexivity | now rewrite IH]. Qed.

Lemma length_append (a b : string) :
  String.length (a ++ b) = (String.length a + String.length b)%nat.
Proof. induction a as [|x a IH]; simpl; [reflexivity | now rewrite IH]. Qed.

Lemma size_append (a b : string) : size (a ++ b) = size a + size b.
Proof. unfold size. rewrite length_append. lia. Qed.

Lemma length_fill (n : nat) (c : ascii) : String.length (string_fill n c) = n.
Proof. induction n as [|n IH]; simpl; [reflexivity | now rewrite IH]. Qed.

Lemma size_string_n (n : N) (c : ascii) : size (string_n n c) = n.
Proof. unfold size, string_n. rewrite length_fill. lia. Qed.

Lemma get_fill_append (n i : nat) (c : ascii) (s : string) :
  (i < n)%nat -> String.get i (string_fill n c ++ s) = Some c.
Proof.
  revert i. induction n as [|n IH]; intros i Hi; [lia|].
  destruct i as [|i]; simpl; [reflexivity | apply IH; lia].
Qed.

End Str.

(** ** The loops of [show_cont_with_frame_and_newlines] *)

Section Loops.

Context {T : Type} `{Show T}.

Lemma collect_plain_map (xs : list T) (acc : list string) :
  collect_plain xs acc = (acc ++ map show xs)%list.
Proof.
  revert acc. induction xs as [|x xs IH]; intros acc; simpl.
  - now rewrite app_nil_r.
  - rewrite IH. unfold push_back. now rewrite <- app_assoc.
Qed.

Lemma rendered_from_plain (prefix : string) (start : nat) (xs : list T) :
  rendered_from prefix 0 start xs = map show xs.
Proof.
  unfold rendered_from, indices_from. revert start.
  induction xs as [|x xs IH]; intros start; simpl; [reflexivity|].
  now rewrite IH.
Qed.

Lemma wrap_succ (k : nat) :
  N.of_nat (S k) < modulus -> size_t_wrap (N.of_nat k + 1) = N.of_nat (S k).
Proof.
  intros Hk. unfold size_t_wrap.
  replace (N.of_nat k + 1) with (N.of_nat (S k)) by lia.
  now apply N.mod_small.
Qed.

(** The counter of the loop is the index of the element it visits, as
    long as the size of the container fits [std::size_t]. *)
Lemma collect_wrapped_rendered (every_n : N) (prefix : string)
    (xs : list T) (k : nat) (acc : list string) :
  every_n <> 0 ->
  N.of_nat (k + List.length xs) < modulus ->
  collect_wrapped every_n
    (String "010" EmptyString ++ string_n (size prefix) " ")
    xs (N.of_nat k) acc
  = (acc ++ rendered_from prefix every_n k xs)%list.
Proof.
  intros Hn. revert k acc.
  induction xs as [|x xs IH]; intros k acc Hlen.
  - simpl. unfold rendered_from. simpl. now rewrite app_nil_r.
  - cbn [collect_wrapped]. cbn [List.length] in Hlen.
    rewrite wrap_succ by lia.
    rewrite IH by (rewrite <- plus_n_Sm in Hlen; exact Hlen).
    unfold rendered_from, indices_from. cbn [List.length seq map combine fst snd].
    unfold rendered_elem at 2, positive_multiple.
    apply N.eqb_neq in Hn. rewrite Hn. cbn [negb andb].
    unfold push_back.
    destruct (negb (N.of_nat k =? 0) && (N.of_nat k mod every_n =? 0));
      rewrite <- app_assoc; reflexivity.
Qed.

(** No index below [every_n] is a positive multiple of it: the loop
    wraps nothing when the container has at most [every_n] elements. *)
Lemma collect_wrapped_short (every_n : N) (newline : string)
    (xs : list T) (i : N) (acc : list string) :
  every_n < modulus ->
  i + N.of_nat (List.length xs) <= every_n ->
  collect_wrapped every_n newline xs i acc = (acc ++ map show xs)%list.
Proof.
  intros Hmax. revert i acc.
  induction xs as [|x xs IH]; intros i acc Hlen.
  - simpl. now rewrite app_nil_r.
  - cbn [collect_wrapped]. cbn [List.length] in Hlen.
    assert (Hi : i < every_n) by lia.
    replace (negb (i =? 0) && (i mod every_n =? 0)) with false.
    + unfold size_t_wrap. rewrite N.mod_small by (unfold modulus in *; lia).
      rewrite IH by lia. unfold push_back. simpl.
      now rewrite <- app_assoc.
    + rewrite N.mod_small by exact Hi.
      destruct (i =? 0); reflexivity.
Qed.

End Loops.

(** ** Containers *)

(** C1. For a container whose size fits [std::size_t],
    [show_cont_with_frame_and_newlines] is the prefix, the texts of the
    elements joined with the separator, and the suffix, where the text of an
    element is its [show], preceded by a newline and as many spaces as the
    prefix has characters exactly when [every_n] is not 0 and the 0-based
    index of the element is a positive multiple of [every_n]; with
    [every_n = 0] the texts are the [show]s alone; the indentation has the
    length of the prefix; the separator stands between any two neighbours. *)
Theorem show_cont_with_frame_and_newlines_spec :
  forall (T : Type) (S : Show T) (separator prefix suffix : string)
         (xs : list T) (every_n : N),
    N.of_nat (List.length xs) < modulus ->
    show_cont_with_frame_and_newlines separator prefix suffix xs every_n
      = framed separator prefix suffix xs every_n
    /\ show_cont_with_frame_and_newlines separator prefix suffix xs 0
       = prefix ++ join separator (map show xs) ++ suffix
    /\ String.length (string_n (size prefix) " ") = String.length prefix
    /\ (forall a b rest,
          join separator (a :: b :: rest)
            = a ++ separator ++ join separator (b :: rest)).
Proof.
  intros T S separator prefix suffix xs every_n Hlen.
  repeat split.
  - unfold show_cont_with_frame_and_newlines, framed.
    destruct (N.eqb_spec every_n 0) as [-> | Hn].
    + now rewrite collect_plain_map, rendered_from_plain.
    + change 0 with (N.of_nat 0) at 1.
      now rewrite collect_wrapped_rendered.
  - unfold show_cont_with_frame_and_newlines. simpl.
    now rewrite collect_plain_map.
  - unfold string_n, size. now rewrite Str.length_fill, Nat2N.id.
Qed.

Lemma show_cont_with_frame_and_newlines_spec_witness :
  N.of_nat (List.length [1; 2; 3; 4; 5]%Z) < modulus
  /\ show_cont_with_frame_and_newlines "," "(" ")" [1; 2; 3; 4; 5]%Z 2
     = framed "," "(" ")" [1; 2; 3; 4; 5]%Z 2.
Proof.
  split; [vm_compute; reflexivity|].
  apply (show_cont_with_frame_and_newlines_spec Z _ "," "(" ")"
           [1; 2; 3; 4; 5]%Z 2).
  vm_compute; reflexivity.
Defined.

(** C2, as stated, fails: on [","], ["("], [")"], [1,2,3,4,5] and 2 the
    function does not return the string with five spaces of indentation and
    no separator in front of the newlines. *)
Lemma wrapped_example_not_as_specified :
  show_cont_with_frame_and_newlines "," "(" ")" [1; 2; 3; 4; 5]%Z 2
    <> wrapped_example_as_specified.
Proof. vm_compute. discriminate. Qed.

(** C2, amended. On [","], ["("], [")"], [1,2,3,4,5] and 2 the function
    returns ["(1,2,\n 3,4,\n 5)"]: in front of the elements at indices 2 and
    4 a newline and one space, the length of the prefix, and the separator
    after every element but the last. *)
Theorem wrapped_example_returned :
  show_cont_with_frame_and_newlines "," "(" ")" [1; 2; 3; 4; 5]%Z 2
    = wrapped_example_as_returned.
Proof. vm_compute. reflexivity. Qed.

(** C7. [show_cont xs] is [show_cont_with ", " xs], which is
    [show_cont_with_frame] with the prefix ["["] and the suffix ["]"]; an
    empty container renders as the prefix followed by the suffix, so
    [show_cont []] is ["[]"]; [show_cont [1,2,3]] is ["[1, 2, 3]"]; a
    container of one element renders as prefix, element, suffix, whatever
    the separator. *)
Theorem show_cont_layers :
  (forall (T : Type) (S : Show T) (xs : list T),
      show_cont xs = show_cont_with ", " xs
      /\ (forall separator,
            show_cont_with separator xs
              = show_cont_with_frame separator "[" "]" xs))
  /\ (forall (T : Type) (S : Show T) (separator prefix suffix : string),
        show_cont_with_frame separator prefix suffix (@nil T)
          = prefix ++ suffix)
  /\ show_cont (@nil Z) = "[]"
  /\ show_cont [1; 2; 3]%Z = "[1, 2, 3]"
  /\ (forall (T : Type) (S : Show T) (separator prefix suffix : string)
             (x : T),
        show_cont_with_frame separator prefix suffix [x]
          = prefix ++ show x ++ suffix).
Proof.
  repeat split; try reflexivity.
Qed.

(** C9. With [0 < every_n] and at most [every_n] elements in the container,
    [show_cont_with_frame_and_newlines] returns what it returns with
    [every_n = 0], which is [show_cont_with_frame] of the same arguments. *)
Theorem no_wrap_when_short :
  forall (T : Type) (S : Show T) (separator prefix suffix : string)
         (xs : list T) (every_n : N),
    every_n < modulus ->
    0 < every_n ->
    N.of_nat (List.length xs) <= every_n ->
    show_cont_with_frame_and_newlines separator prefix suffix xs every_n
      = show_cont_with_frame_and_newlines separator prefix suffix xs 0
    /\ show_cont_with_frame_and_newlines separator prefix suffix xs every_n
      = show_cont_with_frame separator prefix suffix xs.
Proof.
  intros T S separator prefix suffix xs every_n Hmax Hpos Hlen.
  assert (E : show_cont_with_frame_and_newlines separator prefix suffix xs
                every_n
              = show_cont_with_frame_and_newlines separator prefix suffix xs
                  0).
  { unfold show_cont_with_frame_and_newlines.
    destruct (N.eqb_spec every_n 0) as [-> | Hn]; [reflexivity|].
    change (0 =? 0) with true. cbv iota.
    rewrite collect_wrapped_short by (try assumption; lia).
    now rewrite collect_plain_map. }
  split; [exact E | exact E].
Qed.

Lemma no_wrap_when_short_witness :
  show_cont_with_frame_and_newlines "," "(" ")" [1; 2; 3]%Z 3
    = show_cont_with_frame_and_newlines "," "(" ")" [1; 2; 3]%Z 0
  /\ show_cont_with_frame_and_newlines "," "(" ")" [1; 2; 3]%Z 3
    = show_cont_with_frame "," "(" ")" [1; 2; 3]%Z.
Proof.
  apply (no_wrap_when_short Z _ "," "(" ")" [1; 2; 3]%Z 3);
    vm_compute; try reflexivity; discriminate.
Defined.

(** ** [show], optional and outcome values *)

(** C5. [show] of a string is the string, also for a string type that can
    be written to a stream in another way; [show] of a pair is ["("], the
    [show] of the first component, [", "], the [show] of the second and
    [")"], also for a pair type that can be written to a stream; the
    components are rendered by the overload that fits them, as in
    [(1, one)] and in nested pairs. *)
Theorem show_overloads :
  (forall s : string, show s = s)
  /\ (forall (other : Streamable string) (s : string), show s = s)
  /\ (forall (X Y : Type) (SX : Show X) (SY : Show Y) (a : X) (b : Y),
        show (a, b) = "(" ++ show a ++ ", " ++ show b ++ ")")
  /\ (forall (X Y : Type) (SX : Show X) (SY : Show Y)
             (other : Streamable (X * Y)) (a : X) (b : Y),
        show (a, b) = "(" ++ show a ++ ", " ++ show b ++ ")")
  /\ show (1%Z, "one") = "(1, one)"
  /\ show ("a", ("b", (2%Z, "c"))) = "(a, (b, (2, c)))".
Proof.
  repeat split.
Qed.

(** C6. [show_maybe] returns ["Nothing"] for an absent value and ["Just "]
    followed by the [show] of the payload for a present one; [show_result]
    returns ["Error "] followed by the [show] of the payload for an error
    and ["Ok "] followed by it for an ok value: one space after the tag,
    nothing after the payload. *)
Theorem show_maybe_result_spec :
  (forall (T : Type) (S : Show T),
      show_maybe (@nothing T) = Some "Nothing"
      /\ forall v : T, show_maybe (just v) = Some ("Just " ++ show v))
  /\ (forall (Ok Error : Type) (SO : Show Ok) (SE : Show Error),
        (forall e : Error,
            show_result (@error Ok Error e) = Some ("Error " ++ show e))
        /\ (forall v : Ok,
              show_result (@ok Ok Error v) = Some ("Ok " ++ show v)))
  /\ show_maybe (just 42%Z) = Some "Just 42"
  /\ show_result (@error Z string "fail") = Some "Error fail"
  /\ show_result (@ok Z string 42%Z) = Some "Ok 42".
Proof.
  repeat split.
Qed.

(** ** Padding *)

Lemma fill_left_size (c : ascii) (w : N) (s : string) :
  size (fill_left c w s) = N.max w (size s).
Proof.
  unfold fill_left. destruct (N.leb_spec w (size s)) as [Hle | Hlt].
  - lia.
  - rewrite Str.size_append, Str.size_string_n. lia.
Qed.

Lemma fill_left_short (c : ascii) (w : N) (s : string) :
  size s < w -> fill_left c w s = string_n (w - size s) c ++ s.
Proof.
  intros Hlt. unfold fill_left.
  destruct (N.leb_spec w (size s)) as [Hle | _]; [lia | reflexivity].
Qed.

Lemma fill_left_long (c : ascii) (w : N) (s : string) :
  w <= size s -> fill_left c w s = s.
Proof.
  intros Hle. unfold fill_left.
  destruct (N.leb_spec w (size s)) as [_ | Hlt]; [reflexivity | lia].
Qed.

(** C8, as stated, fails: for a pair type that can be written to a
    stream, [show_fill_left] pads what [operator<<] writes, which is not
    the [show] of the pair. *)
Lemma show_fill_left_not_overloaded_show :
  @show_fill_left (Z * Z) stream_pair_sample " " 0 (1, 2)%Z
    <> fill_left " " 0 (show (1, 2)%Z).
Proof. vm_compute. discriminate. Qed.

(** C8, amended. [fill_left c w s] has the length [max w (len s)]; when
    [s] is shorter than [w] it is [w - len s] copies of [c] followed by [s],
    so its first [w - len s] characters are [c]; when [s] has at least [w]
    characters it is [s]. [show_fill_left c w x] is [fill_left c w] of
    [show<T>(x)], the primary template of [show], which writes [x] to a
    stream; it has [max w] of that text's length characters and is that
    text itself when it has at least [w] characters. For a string the
    primary template and the overloaded [show] agree. *)
Theorem fill_left_spec :
  (forall (c : ascii) (w : N) (s : string),
      size (fill_left c w s) = N.max w (size s)
      /\ (size s < w ->
          fill_left c w s = string_n (w - size s) c ++ s
          /\ forall i : nat,
               N.of_nat i < w - size s ->
               String.get i (fill_left c w s) = Some c)
      /\ (w <= size s -> fill_left c w s = s))
  /\ (forall (T : Type) (St : Streamable T) (c : ascii) (w : N) (x : T),
        show_fill_left c w x = fill_left c w (show_template x)
        /\ size (show_fill_left c w x) = N.max w (size (show_template x))
        /\ (w <= size (show_template x) ->
            show_fill_left c w x = show_template x))
  /\ (forall (c : ascii) (w : N) (s : string),
        show_template s = show s
        /\ show_fill_left c w s = fill_left c w (show s))
  /\ show_fill_left " " 4 3%Z = "   3"
  /\ show_fill_left " " 4 12345%Z = "12345".
Proof.
  split; [|split; [|split; [|split; reflexivity]]].
  - intros c w s. split; [apply fill_left_size | split].
    + intros Hlt. rewrite fill_left_short by exact Hlt.
      split; [reflexivity|].
      intros i Hi. unfold string_n. apply Str.get_fill_append. lia.
    + apply fill_left_long.
  - intros T St c w x. split; [reflexivity|]. unfold show_fill_left.
    split; [apply fill_left_size|].
    intros Hle. now apply fill_left_long.
  - intros c w s. split; reflexivity.
Qed.

Lemma fill_left_spec_witness :
  (size "3" < 4 /\ fill_left "0" 4 "3" = string_n (4 - size "3") "0" ++ "3")
  /\ (4 <= size "12345" /\ fill_left "0" 4 "12345" = "12345")
  /\ (4 <= size (show_template 12345%Z)
      /\ show_fill_left " " 4 12345%Z = show_template 12345%Z).
Proof.
  assert (Hs : size "3" < 4) by (vm_compute; reflexivity).
  assert (Hl : 4 <= size "12345") by (vm_compute; discriminate).
  assert (Hx : 4 <= size (show_template 12345%Z))
    by (vm_compute; discriminate).
  split; [split; [exact Hs|] | split; [split; [exact Hl|] | split; [exact Hx|]]].
  - exact (proj1 (proj1 (proj2 (proj1 fill_left_spec "0"%char 4 "3")) Hs)).
  - exact (proj2 (proj2 (proj1 fill_left_spec "0"%char 4 "12345")) Hl).
  - exact (proj2 (proj2 (proj1 (proj2 fill_left_spec) Z _ " "%char 4
                           12345%Z)) Hx).
Defined.

(** ** Decimal digits *)

Module Digits.

Lemma is_digit_not_minus (c : ascii) :
  is_digit c = true -> (c =? "-")%char = false.
Proof.
  intros Hd. destruct (Ascii.eqb_spec c "-") as [-> | _];
    [vm_compute in Hd; discriminate | reflexivity].
Qed.

Lemma is_digit_not_point (c : ascii) :
  is_digit c = true -> (c =? ".")%char = false.
Proof.
  intros Hd. destruct (Ascii.eqb_spec c ".") as [-> | _];
    [vm_compute in Hd; discriminate | reflexivity].
Qed.

Lemma is_digit_digit_char (n : N) : is_digit (digit_char n) = true.
Proof.
  unfold is_digit, digit_char.
  assert (Hr : n mod 10 < 10) by (apply N.mod_lt; discriminate).
  revert Hr. generalize (n mod 10). intros r Hr.
  rewrite N_ascii_embedding by lia.
  apply andb_true_intro. split; apply N.leb_le; lia.
Qed.

Lemma all_digits_append (a b : string) :
  all_digits (a ++ b) = all_digits a && all_digits b.
Proof.
  induction a as [|c a IH]; simpl; [reflexivity|].
  now rewrite IH, andb_assoc.
Qed.

Lemma all_digits_zeros (n : nat) : all_digits (string_fill n "0") = true.
Proof. induction n as [|n IH]; simpl; [reflexivity | exact IH]. Qed.

Lemma all_digits_uint (d : uint) :
  all_digits (NilEmpty.string_of_uint d) = true.
Proof. induction d; simpl; auto. Qed.

Lemma all_digits_string_of_N (n : N) : all_digits (string_of_N n) = true.
Proof. apply all_digits_uint. Qed.

Lemma string_of_uint_cons (d : uint) :
  d <> Nil -> exists c rest, NilEmpty.string_of_uint d = String c rest.
Proof. destruct d; intros Hd; [congruence | simpl; eauto ..]. Qed.

(** The text of a number has a first character. *)
Lemma string_of_N_cons (n : N) :
  exists c rest, string_of_N n = String c rest.
Proof.
  unfold string_of_N. apply string_of_uint_cons.
  destruct n as [|p]; simpl; [discriminate|].
  apply Unsigned.to_uint_nonnil.
Qed.

Lemma low_digits_length (k : nat) (n : N) (acc : string) :
  String.length (low_digits k n acc) = (k + String.length acc)%nat.
Proof.
  revert n acc. induction k as [|k IH]; intros n acc; simpl;
    [reflexivity|].
  rewrite IH. simpl. lia.
Qed.

Lemma low_digits_all (k : nat) (n : N) (acc : string) :
  all_digits acc = true -> all_digits (low_digits k n acc) = true.
Proof.
  revert n acc. induction k as [|k IH]; intros n acc Hacc; simpl;
    [exact Hacc|].
  apply IH. simpl. now rewrite is_digit_digit_char.
Qed.

End Digits.

(** ** Reading a rendered number *)

Module Reading.

Import Digits.

Lemma before_point_digits (D tail : string) :
  all_digits D = true ->
  before_point (D ++ tail) = D ++ before_point tail.
Proof.
  induction D as [|c D IH]; simpl; [reflexivity|].
  intros Hd. apply andb_prop in Hd as [Hc HD].
  now rewrite (is_digit_not_point c Hc), IH.
Qed.

Lemma after_point_digits (D tail : string) :
  all_digits D = true -> after_point (D ++ tail) = after_point tail.
Proof.
  induction D as [|c D IH]; simpl; [reflexivity|].
  intros Hd. apply andb_prop in Hd as [Hc HD].
  now rewrite (is_digit_not_point c Hc), IH.
Qed.

Lemma before_point_sign (b : bool) (s : string) :
  before_point (sign_text b ++ s) = sign_text b ++ before_point s.
Proof. destruct b; reflexivity. Qed.

Lemma after_point_sign (b : bool) (s : string) :
  after_point (sign_text b ++ s) = after_point s.
Proof. destruct b; reflexivity. Qed.

Lemma strip_sign_digit (b : bool) (c : ascii) (rest : string) :
  is_digit c = true ->
  strip_sign (sign_text b ++ String c rest) = String c rest.
Proof.
  intros Hc. destruct b; simpl; [reflexivity|].
  now rewrite (is_digit_not_minus c Hc).
Qed.

Lemma starts_with_minus_digit (c : ascii) (rest : string) :
  is_digit c = true -> starts_with_minus (String c rest) = false.
Proof. intros Hc. simpl. now apply is_digit_not_minus. Qed.

End Reading.

(** ** Fixed notation *)

Module Fixed.

Import Digits.

Lemma static_cast_int_small (r : N) :
  r < 2 ^ 31 -> static_cast_int r = Z.of_N r.
Proof.
  intros Hr. unfold static_cast_int.
  change (2 ^ 31) with 2147483648 in Hr.
  change (2 ^ 32)%Z with 4294967296%Z.
  change (2 ^ 31)%Z with 2147483648%Z.
  rewrite Z.mod_small by lia.
  destruct (Z.ltb_spec (Z.of_N r) 2147483648); [reflexivity | lia].
Qed.

Lemma effective_precision_of_N (r : N) :
  effective_precision (Z.of_N r) = r.
Proof.
  unfold effective_precision.
  destruct (Z.ltb_spec (Z.of_N r) 0); [lia | apply N2Z.id].
Qed.

Lemma size_point_and (r : N) (F : string) :
  size F = r -> size (point_and r F) = if r =? 0 then 0 else 1 + r.
Proof.
  intros HF. unfold point_and. destruct (r =? 0); [reflexivity|].
  unfold size in *. cbn [String.length]. lia.
Qed.

(** Fixed notation of a number that is not negative: digits, and behind
    a point as many digits as the precision. *)
Lemma fixed_text_shape (p scaled : N) :
  exists D F,
    fixed_text p scaled = D ++ point_and p F
    /\ all_digits D = true
    /\ (exists c rest, D = String c rest)
    /\ all_digits F = true
    /\ size F = p.
Proof.
  exists (string_of_N (scaled / 10 ^ p)),
         (low_digits (N.to_nat p) (scaled mod 10 ^ p) EmptyString).
  repeat split.
  - apply all_digits_string_of_N.
  - apply string_of_N_cons.
  - now apply low_digits_all.
  - unfold size. rewrite low_digits_length. cbn [String.length]. lia.
Qed.

Lemma fixed_notation_abs_finite (p : Z) (x : spec_float) :
  is_finite x = true ->
  exists scaled,
    fixed_notation p (SFabs x) = fixed_text (effective_precision p) scaled.
Proof.
  destruct x as [s | s | | s m e]; simpl; try discriminate; intros _;
    eauto.
Qed.

(** What [std::abs] returns is never written with a minus sign. *)
Lemma fixed_notation_abs_no_minus (p : Z) (x : spec_float) :
  starts_with_minus (fixed_notation p (SFabs x)) = false.
Proof.
  assert (Ht : forall q n, starts_with_minus (fixed_text q n) = false).
  { intros q n. unfold fixed_text.
    destruct (string_of_N_cons (n / 10 ^ q)) as (c & rest & E).
    pose proof (all_digits_string_of_N (n / 10 ^ q)) as Hd.
    rewrite E in *. simpl in Hd. apply andb_prop in Hd as [Hc _].
    simpl. now apply is_digit_not_minus. }
  destruct x as [s | s | | s m e]; simpl; try reflexivity; apply Ht.
Qed.

(** Padding with ['0']: some zeros in front, up to the width. *)
Lemma fill_left_zeros (w : N) (s : string) :
  exists k : nat,
    fill_left "0" w s = string_fill k "0" ++ s
    /\ N.max w (size s) = N.of_nat k + size s.
Proof.
  unfold fill_left. destruct (N.leb_spec w (size s)) as [Hle | Hlt].
  - exists 0%nat. simpl. split; [reflexivity | lia].
  - exists (N.to_nat (w - size s)). split; [reflexivity | lia].
Qed.

Lemma fill_left_zeros_no_minus (w : N) (s : string) :
  starts_with_minus s = false ->
  starts_with_minus (fill_left "0" w s) = false.
Proof.
  intros Hs. destruct (fill_left_zeros w s) as (k & -> & _).
  destruct k; simpl; [exact Hs | reflexivity].
Qed.

End Fixed.

(** ** [show_float] *)

Section ShowFloat.

Import Digits Reading Fixed.

Lemma size_t_wrap_small (n : N) : n < modulus -> size_t_wrap n = n.
Proof. intros Hn. unfold size_t_wrap. now apply N.mod_small. Qed.

Lemma show_float_unfold (m r : N) (x : spec_float) :
  show_float m r x
  = sign_text (lt_zero x)
    ++ fill_left "0"
         (size_t_wrap (min_left_chars_final m x + 1 + r))
         (fixed_notation (static_cast_int r) (SFabs x)).
Proof.
  unfold show_float, min_left_chars_final. cbn [std_abs stream_fixed floating_double].
  destruct (lt_zero x); reflexivity.
Qed.

(** The result for a finite number: the sign, digits, and behind a point
    as many digits as asked. *)
Lemma show_float_shape (m r : N) (x : spec_float) :
  is_finite x = true ->
  r < 2 ^ 31 ->
  m + 1 + r < modulus ->
  exists D F,
    show_float m r x = sign_text (lt_zero x) ++ D ++ point_and r F
    /\ all_digits D = true
    /\ (exists c rest, D = String c rest)
    /\ min_left_chars_final m x <= size D
    /\ all_digits F = true
    /\ size F = r.
Proof.
  intros Hfin Hr Hm.
  rewrite show_float_unfold, static_cast_int_small by exact Hr.
  destruct (fixed_notation_abs_finite (Z.of_N r) x Hfin) as (scaled & ->).
  rewrite effective_precision_of_N.
  destruct (fixed_text_shape r scaled) as (D0 & F & -> & HD0 & HC & HF & HsF).
  assert (Heff : min_left_chars_final m x <= m).
  { unfold min_left_chars_final.
    destruct (lt_zero x && (0 <? m)); lia. }
  rewrite size_t_wrap_small by lia.
  destruct (fill_left_zeros (min_left_chars_final m x + 1 + r)
              (D0 ++ point_and r F)) as (k & -> & Hk).
  exists (string_fill k "0" ++ D0), F.
  rewrite Str.append_assoc.
  split; [reflexivity|]. split; [|split; [|split; [|split]]].
  - now rewrite all_digits_append, all_digits_zeros, HD0.
  - destruct HC as (c & rest & ->).
    destruct k; simpl; eauto.
  - rewrite Str.size_append in *.
    rewrite (size_point_and r F HsF) in Hk.
    assert (Hk' : size (string_fill k "0") = N.of_nat k)
      by (unfold size; now rewrite Str.length_fill).
    rewrite Hk'. destruct (r =? 0); lia.
  - exact HF.
  - exact HsF.
Qed.

End ShowFloat.

(** C3, as stated, fails: [show_float(3, 3)] of -3.14159 is ["-03.142"],
    whose integer part has two digits, not the three asked for. *)
Lemma show_float_layout_negative_fails :
  ~ float_layout 3 3 (show_float 3 3 neg_pi_d).
Proof.
  intros (_ & _ & _ & Hleft). vm_compute in Hleft. now apply Hleft.
Qed.

(** *** Decimal points *)

Lemma has_point_append (a b : string) :
  has_point (a ++ b) = has_point a || has_point b.
Proof.
  induction a as [|c a IH]; simpl; [reflexivity|].
  now rewrite IH, orb_assoc.
Qed.

Lemma has_point_digits (D : string) :
  all_digits D = true -> has_point D = false.
Proof.
  induction D as [|c D IH]; simpl; [reflexivity|].
  intros Hd. apply andb_prop in Hd as [Hc HD].
  now rewrite (Digits.is_digit_not_point c Hc), IH.
Qed.

Lemma has_point_point_and (r : N) (F : string) :
  all_digits F = true -> has_point (point_and r F) = negb (r =? 0).
Proof.
  intros HF. unfold point_and. destruct (r =? 0); reflexivity.
Qed.

(** C3, amended. For a finite [x], [right_digits] below 2^31 and widths
    within [std::size_t], the result of [show_float] is the sign for
    [x < 0], then zeros, then the fixed notation of [abs(x)]: its integer
    digits and, for [right_digits > 0], one decimal point and exactly
    [right_digits] digits; for [right_digits = 0] there is no point. The
    zeros fill the text up to the effective minimum of left digits plus 1
    plus [right_digits] characters, so the integer part, digits only, has
    at least [min_left_digits] digits for [x >= 0] and at least
    [min_left_digits - 1] for [x < 0] with [min_left_digits > 0]: the sign
    is put in front after the padding and is one of the [min_left_digits]
    characters in front of the point. *)
Theorem show_float_layout :
  forall (min_left_digits right_digits : N) (x : spec_float),
    is_finite x = true ->
    right_digits < 2 ^ 31 ->
    min_left_digits + 1 + right_digits < modulus ->
    exists (I F : string) (zeros : N),
      fixed_notation (Z.of_N right_digits) (SFabs x)
        = I ++ point_and right_digits F
      /\ all_digits I = true
      /\ 1 <= size I
      /\ all_digits F = true
      /\ size F = right_digits
      /\ zeros
         = min_left_chars_final min_left_digits x + 1 + right_digits
           - size (I ++ point_and right_digits F)
      /\ show_float min_left_digits right_digits x
         = sign_text (lt_zero x)
           ++ string_n zeros "0" ++ I ++ point_and right_digits F
      /\ has_point (show_float min_left_digits right_digits x)
         = negb (right_digits =? 0)
      /\ integer_part (show_float min_left_digits right_digits x)
         = string_n zeros "0" ++ I
      /\ fraction_part (show_float min_left_digits right_digits x) = F
      /\ float_layout (min_left_chars_final min_left_digits x) right_digits
           (show_float min_left_digits right_digits x)
      /\ min_left_digits
         <= size (before_point (show_float min_left_digits right_digits x))
      /\ starts_with_minus (show_float min_left_digits right_digits x)
         = lt_zero x.
Proof.
  intros m r x Hfin Hr Hm.
  destruct (Fixed.fixed_notation_abs_finite (Z.of_N r) x Hfin)
    as (scaled & Etext).
  rewrite Fixed.effective_precision_of_N in Etext.
  destruct (Fixed.fixed_text_shape r scaled)
    as (I & F & EIF & HI & (c & rest & EC) & HF & HsF).
  rewrite EIF in Etext.
  set (tail := point_and r F) in *.
  set (eff := min_left_chars_final m x) in *.
  assert (Heff : eff <= m).
  { unfold eff, min_left_chars_final.
    destruct (lt_zero x && (0 <? m)); lia. }
  assert (Hc : is_digit c = true).
  { rewrite EC in HI. simpl in HI. now apply andb_prop in HI as [Hc _]. }
  assert (HsI : 1 <= size I).
  { rewrite EC. unfold size. cbn [String.length]. lia. }
  assert (Hstail : size tail = if r =? 0 then 0 else 1 + r)
    by (apply Fixed.size_point_and; exact HsF).
  assert (Hbp : before_point tail = EmptyString).
  { unfold tail, point_and. destruct (r =? 0); reflexivity. }
  assert (Hap : after_point tail = F).
  { unfold tail, point_and. destruct (N.eqb_spec r 0) as [E0 | _].
    - rewrite E0 in HsF. destruct F; [reflexivity | discriminate].
    - reflexivity. }
  (* the result, piece by piece *)
  assert (Eout : show_float m r x
                 = sign_text (lt_zero x)
                   ++ string_n (eff + 1 + r - size (I ++ tail)) "0"
                   ++ I ++ tail).
  { rewrite show_float_unfold, Fixed.static_cast_int_small, Etext
      by exact Hr.
    fold eff. rewrite size_t_wrap_small by lia.
    destruct (Fixed.fill_left_zeros (eff + 1 + r) (I ++ tail))
      as (k & -> & Hk).
    unfold string_n.
    replace (N.to_nat (eff + 1 + r - size (I ++ tail))) with k by lia.
    reflexivity. }
  set (zeros := eff + 1 + r - size (I ++ tail)) in *.
  set (D := string_n zeros "0" ++ I).
  assert (HD : all_digits D = true).
  { unfold D, string_n.
    now rewrite Digits.all_digits_append, Digits.all_digits_zeros, HI. }
  assert (HDc : exists c' rest', D = String c' rest' /\ is_digit c' = true).
  { unfold D, string_n. destruct (N.to_nat zeros) as [|k].
    - exists c, rest. now rewrite EC.
    - exists "0"%char, (string_fill k "0" ++ I). split; reflexivity. }
  assert (HsD : eff <= size D).
  { unfold D. rewrite Str.size_append, Str.size_string_n.
    unfold zeros. rewrite Str.size_append, Hstail.
    destruct (r =? 0); lia. }
  assert (Eout' : show_float m r x = sign_text (lt_zero x) ++ D ++ tail).
  { rewrite Eout. unfold D. now rewrite Str.append_assoc. }
  assert (Hint : integer_part (show_float m r x) = D).
  { rewrite Eout'. unfold integer_part.
    destruct HDc as (c' & rest' & ED & Hc').
    rewrite ED. cbn [append].
    rewrite Reading.strip_sign_digit by exact Hc'.
    change (String c' (rest' ++ tail)) with (String c' rest' ++ tail).
    rewrite <- ED, Reading.before_point_digits by exact HD.
    now rewrite Hbp, Str.append_nil_r. }
  assert (Hfrac : fraction_part (show_float m r x) = F).
  { rewrite Eout'. unfold fraction_part.
    now rewrite Reading.after_point_sign, Reading.after_point_digits. }
  exists I, F, zeros.
  split; [exact Etext|]. split; [exact HI|]. split; [exact HsI|].
  split; [exact HF|]. split; [exact HsF|]. split; [reflexivity|].
  split; [exact Eout|].
  split; [|split; [exact Hint|split; [exact Hfrac|split; [|split]]]].
  - rewrite Eout', !has_point_append, (has_point_digits D HD).
    unfold tail. rewrite has_point_point_and by exact HF.
    destruct (lt_zero x); reflexivity.
  - unfold float_layout. rewrite Hint, Hfrac. repeat split; assumption.
  - rewrite Eout', Reading.before_point_sign, Reading.before_point_digits,
      Hbp, Str.append_nil_r by exact HD.
    rewrite Str.size_append.
    unfold eff, min_left_chars_final in HsD.
    destruct (lt_zero x); cbn [andb sign_text] in *.
    + change (size "-") with 1. destruct (N.ltb_spec 0 m); lia.
    + change (size EmptyString) with 0. lia.
  - rewrite Eout'. destruct HDc as (c' & rest' & -> & Hc').
    destruct (lt_zero x); simpl; [reflexivity|].
    now apply Digits.is_digit_not_minus.
Qed.

Lemma show_float_layout_witness :
  exists (I F : string) (zeros : N),
    fixed_notation (Z.of_N 3) (SFabs neg_pi_d) = I ++ point_and 3 F
    /\ all_digits I = true
    /\ 1 <= size I
    /\ all_digits F = true
    /\ size F = 3
    /\ zeros = min_left_chars_final 3 neg_pi_d + 1 + 3
               - size (I ++ point_and 3 F)
    /\ show_float 3 3 neg_pi_d
       = sign_text (lt_zero neg_pi_d)
         ++ string_n zeros "0" ++ I ++ point_and 3 F
    /\ has_point (show_float 3 3 neg_pi_d) = negb (3 =? 0)
    /\ integer_part (show_float 3 3 neg_pi_d) = string_n zeros "0" ++ I
    /\ fraction_part (show_float 3 3 neg_pi_d) = F
    /\ float_layout (min_left_chars_final 3 neg_pi_d) 3
         (show_float 3 3 neg_pi_d)
    /\ 3 <= size (before_point (show_float 3 3 neg_pi_d))
    /\ starts_with_minus (show_float 3 3 neg_pi_d) = lt_zero neg_pi_d.
Proof.
  apply (show_float_layout 3 3 neg_pi_d).
  - reflexivity.
  - vm_compute; reflexivity.
  - vm_compute; reflexivity.
Defined.

(** *** Outside the ranges of [int] and [std::size_t] *)

Lemma show_float_steps_size (m r : N) (x : spec_float) :
  size (show_float_steps m r x)
  = size (sign_text (SFltb x (S754_zero false)))
    + N.max ((if SFltb x (S754_zero false) && (0 <? m) then m - 1 else m)
             + 1 + r)
        (size (fixed_notation (Z.of_N r) (SFabs x))).
Proof.
  unfold show_float_steps.
  destruct (SFltb x (S754_zero false)); cbn [sign_text andb].
  - change ("-" ++ ?s) with (String "-" EmptyString ++ s).
    now rewrite Str.size_append, fill_left_size.
  - now rewrite fill_left_size.
Qed.

(** The fixed notation of a finite number at a precision of [r >= 1] has
    at least [2 + r] characters. *)
Lemma fixed_notation_abs_wide (r : N) (x : spec_float) :
  is_finite x = true ->
  1 <= r ->
  2 + r <= size (fixed_notation (Z.of_N r) (SFabs x)).
Proof.
  intros Hfin H1.
  destruct (Fixed.fixed_notation_abs_finite (Z.of_N r) x Hfin)
    as (scaled & ->).
  rewrite Fixed.effective_precision_of_N.
  destruct (Fixed.fixed_text_shape r scaled)
    as (D & F & -> & _ & (c & rest & ->) & _ & HsF).
  rewrite Str.size_append, (Fixed.size_point_and r F HsF).
  destruct (N.eqb_spec r 0) as [-> | _]; [lia|].
  unfold size at 1. cbn [String.length]. lia.
Qed.

(** C4, as stated, fails outside the ranges of the machine types. With
    [min_left_digits = SIZE_MAX] the width wraps around and nothing is
    padded: the result is ["3.142"], not a text of more than 2^64
    characters. With [right_digits = 2^32 - 1] the cast to [int] gives the
    precision -1 and six fractional digits, not 2^32 - 1 of them. *)
Lemma show_float_algorithm_out_of_range :
  show_float (modulus - 1) 3 pi_d <> show_float_steps (modulus - 1) 3 pi_d
  /\ show_float 0 (2 ^ 32 - 1) pi_d <> show_float_steps 0 (2 ^ 32 - 1) pi_d.
Proof.
  split; intros E; apply (f_equal size) in E;
    rewrite show_float_steps_size in E.
  - replace (size (show_float (modulus - 1) 3 pi_d)) with 5 in E
      by (vm_compute; reflexivity).
    change (SFltb pi_d (S754_zero false)) with false in E.
    cbn [andb sign_text] in E. change (size EmptyString) with 0 in E.
    revert E. generalize (size (fixed_notation (Z.of_N 3) (SFabs pi_d))).
    change (modulus - 1 + 1 + 3) with 18446744073709551619.
    intros n E. lia.
  - pose proof (fixed_notation_abs_wide (2 ^ 32 - 1) pi_d eq_refl) as Hwide.
    change (SFltb pi_d (S754_zero false)) with false in E.
    cbn [andb sign_text] in E. change (size EmptyString) with 0 in E.
    rewrite show_float_unfold, Str.size_append, fill_left_size in E.
    change (lt_zero pi_d) with false in E.
    cbn [sign_text] in E. change (size EmptyString) with 0 in E.
    replace (size (fixed_notation (static_cast_int (2 ^ 32 - 1))
                     (SFabs pi_d))) with 8 in E
      by (vm_compute; reflexivity).
    replace (size_t_wrap (min_left_chars_final 0 pi_d + 1 + (2 ^ 32 - 1)))
      with 4294967296 in E by (vm_compute; reflexivity).
    revert E Hwide.
    generalize (size (fixed_notation (Z.of_N (2 ^ 32 - 1)) (SFabs pi_d))).
    change (2 ^ 32 - 1) with 4294967295.
    intros n E Hwide.
    assert (H1 : 1 <= 4294967295) by (vm_compute; discriminate).
    specialize (Hwide H1). lia.
Qed.

(** C4, amended. With [right_digits] below 2^31 and widths within
    [std::size_t],
    [show_float] computes: the sign test [x < 0]; for a negative number and
    a positive [min_left_digits] one digit less to pad to; [abs(x)] in fixed
    notation at the precision [right_digits]; ['0'] in front up to the
    effective minimum plus 1 plus [right_digits] characters; and ["-"] in
    front exactly for a negative number. The four sample calls return
    ["3.142"], ["03.142"], ["-03.142"] and ["0.142"]. *)
Theorem show_float_algorithm :
  (forall (min_left_digits right_digits : N) (x : spec_float),
      right_digits < 2 ^ 31 ->
      min_left_digits + 1 + right_digits < modulus ->
      show_float min_left_digits right_digits x
        = show_float_steps min_left_digits right_digits x)
  /\ show_float 0 3 pi_d = "3.142"
  /\ show_float 2 3 pi_d = "03.142"
  /\ show_float 3 3 neg_pi_d = "-03.142"
  /\ show_float 0 3 d_0_142 = "0.142".
Proof.
  split; [|repeat split; vm_compute; reflexivity].
  intros m r x Hr Hm.
  unfold show_float, show_float_steps.
  cbn [lt_zero std_abs stream_fixed floating_double].
  rewrite Fixed.static_cast_int_small by exact Hr.
  assert (Hw : forall n, n <= m -> size_t_wrap (n + 1 + r) = n + 1 + r).
  { intros n Hn. apply size_t_wrap_small. lia. }
  destruct (SFltb x (S754_zero false) && (0 <? m));
    rewrite Hw by lia; reflexivity.
Qed.

Lemma show_float_algorithm_witness :
  show_float 3 3 neg_pi_d = show_float_steps 3 3 neg_pi_d.
Proof.
  apply (proj1 show_float_algorithm 3 3 neg_pi_d); vm_compute; reflexivity.
Defined.

(** C10. The result of [show_float] begins with ['-'] exactly when
    [x < 0]. Negative zero is not below zero and is rendered as positive
    zero, without a sign; every number below zero, however small, is
    rendered with the sign in front, as -1e-10 is at three digits:
    ["-0.000"]. *)
Theorem show_float_sign :
  (forall (min_left_chars right_char_count : N) (x : spec_float),
      starts_with_minus (show_float min_left_chars right_char_count x)
        = lt_zero x)
  /\ lt_zero (S754_zero true) = false
  /\ (forall min_left_chars right_char_count : N,
        show_float min_left_chars right_char_count (S754_zero true)
          = show_float min_left_chars right_char_count (S754_zero false))
  /\ (forall (min_left_chars right_char_count : N) (m : positive) (e : Z),
        starts_with_minus
          (show_float min_left_chars right_char_count (S754_finite true m e))
          = true)
  /\ show_float 0 3 neg_tiny_d = "-0.000"
  /\ show_float 0 3 (S754_zero true) = "0.000".
Proof.
  assert (Hsign : forall m r x,
             starts_with_minus (show_float m r x) = lt_zero x).
  { intros m r x. rewrite show_float_unfold.
    destruct (lt_zero x); [reflexivity|]. cbn [sign_text append].
    apply Fixed.fill_left_zeros_no_minus, Fixed.fixed_notation_abs_no_minus. }
  split; [exact Hsign|]. split; [reflexivity|].
  split; [reflexivity|]. split; [|split; vm_compute; reflexivity].
  intros m r mant e. now rewrite Hsign.
Qed.

(** * Further properties *)

(** ** Padding, continued *)

Module Pad.

Lemma string_fill_add (a b : nat) (c : ascii) :
  string_fill a c ++ string_fill b c = string_fill (a + b) c.
Proof. induction a as [|a IH]; simpl; [reflexivity | now rewrite IH]. Qed.

Lemma string_fill_shift (k : nat) (c : ascii) (rest : string) :
  string_fill k c ++ String c rest = string_fill (S k) c ++ rest.
Proof. induction k as [|k IH]; simpl; [reflexivity | now rewrite IH]. Qed.

Lemma string_n_add (a b : N) (c : ascii) :
  string_n a c ++ string_n b c = string_n (a + b) c.
Proof.
  unfold string_n. rewrite string_fill_add. f_equal. lia.
Qed.

(** Padding on the left in one formula: the subtraction stops at 0. *)
Lemma fill_left_closed (c : ascii) (w : N) (s : string) :
  fill_left c w s = string_n (w - size s) c ++ s.
Proof.
  unfold fill_left. destruct (N.leb_spec w (size s)) as [Hle | Hlt];
    [|reflexivity].
  replace (w - size s) with 0 by lia. reflexivity.
Qed.

Lemma fill_right_closed (c : ascii) (w : N) (s : string) :
  fill_right c w s = s ++ string_n (w - size s) c.
Proof.
  unfold fill_right. destruct (N.leb_spec w (size s)) as [Hle | Hlt];
    [|reflexivity].
  replace (w - size s) with 0 by lia.
  unfold string_n. simpl. now rewrite Str.append_nil_r.
Qed.

Lemma fill_right_size (c : ascii) (w : N) (s : string) :
  size (fill_right c w s) = N.max w (size s).
Proof.
  rewrite fill_right_closed, Str.size_append, Str.size_string_n. lia.
Qed.

Lemma fill_left_twice (c : ascii) (w w' : N) (s : string) :
  fill_left c w (fill_left c w' s) = fill_left c (N.max w w') s.
Proof.
  rewrite (fill_left_closed c w), fill_left_size.
  rewrite (fill_left_closed c w'), (fill_left_closed c (N.max w w')).
  rewrite <- Str.append_assoc, string_n_add. f_equal. f_equal. lia.
Qed.

End Pad.

(** ** [show_float], continued *)

Section ShowFloatMore.

Lemma min_left_chars_final_le (m : N) (x : spec_float) :
  min_left_chars_final m x <= m.
Proof.
  unfold min_left_chars_final. destruct (lt_zero x && (0 <? m)); lia.
Qed.

Lemma show_float_size (m r : N) (x : spec_float) :
  m + 1 + r < modulus ->
  size (show_float m r x)
  = size (sign_text (lt_zero x))
    + N.max (min_left_chars_final m x + 1 + r)
        (size (fixed_notation (static_cast_int r) (SFabs x))).
Proof.
  intros Hm. pose proof (min_left_chars_final_le m x) as Hle.
  rewrite show_float_unfold, Str.size_append, fill_left_size.
  now rewrite size_t_wrap_small by lia.
Qed.

Lemma show_float_starts_with_minus (m r : N) (x : spec_float) :
  starts_with_minus (show_float m r x) = lt_zero x.
Proof.
  rewrite show_float_unfold.
  destruct (lt_zero x); [reflexivity|]. cbn [sign_text append].
  apply Fixed.fill_left_zeros_no_minus, Fixed.fixed_notation_abs_no_minus.
Qed.

(** A finite number in fixed notation with a fraction has at least one
    digit, the point and the fractional digits. *)
Lemma fixed_notation_abs_size (r : N) (x : spec_float) :
  is_finite x = true ->
  1 <= r ->
  r < 2 ^ 31 ->
  2 + r <= size (fixed_notation (static_cast_int r) (SFabs x)).
Proof.
  intros Hfin H1 Hr.
  rewrite Fixed.static_cast_int_small by exact Hr.
  destruct (Fixed.fixed_notation_abs_finite (Z.of_N r) x Hfin)
    as (scaled & ->).
  rewrite Fixed.effective_precision_of_N.
  destruct (Fixed.fixed_text_shape r scaled)
    as (D & F & -> & _ & (c & rest & ->) & _ & HsF).
  rewrite Str.size_append, (Fixed.size_point_and r F HsF).
  destruct (N.eqb_spec r 0) as [-> | _]; [lia|].
  unfold size at 1. cbn [String.length]. lia.
Qed.

Lemma low_digits_zero (k : nat) (acc : string) :
  low_digits k 0 acc = string_fill k "0" ++ acc.
Proof.
  revert acc. induction k as [|k IH]; intros acc; [reflexivity|].
  cbn [low_digits]. change (0 / 10) with 0.
  change (digit_char 0) with "0"%char.
  now rewrite IH, Pad.string_fill_shift.
Qed.

End ShowFloatMore.

(** X1. Without overflow of the width, the result of [show_float] has at
    least [min_left_chars + 1 + right_char_count] characters, the sign
    included, for every value, also an infinity or a NaN; a negative number
    has at least [2 + right_char_count]. *)
Theorem show_float_min_width :
  forall (min_left_chars right_char_count : N) (x : spec_float),
    min_left_chars + 1 + right_char_count < modulus ->
    N.max min_left_chars (if lt_zero x then 1 else 0) + 1 + right_char_count
    <= size (show_float min_left_chars right_char_count x).
Proof.
  intros m r x Hm. rewrite show_float_size by exact Hm.
  unfold min_left_chars_final.
  destruct (lt_zero x); cbn [andb sign_text].
  - change (size "-") with 1. destruct (N.ltb_spec 0 m); lia.
  - change (size EmptyString) with 0. lia.
Qed.

Lemma show_float_min_width_witness :
  N.max 4 (if lt_zero neg_pi_d then 1 else 0) + 1 + 3
  <= size (show_float 4 3 neg_pi_d).
Proof.
  apply (show_float_min_width 4 3 neg_pi_d). vm_compute; reflexivity.
Defined.

(** X2. With a positive [min_left_chars] and a width
    [min_left_chars + 1 + right_char_count] within [std::size_t], a number
    whose digits fit, with one character left for the sign, is rendered in
    exactly
    [min_left_chars + 1 + right_char_count] characters whatever its sign:
    columns of positive and negative numbers line up. *)
Theorem show_float_aligned_width :
  forall (min_left_chars right_char_count : N) (x : spec_float),
    0 < min_left_chars ->
    min_left_chars + 1 + right_char_count < modulus ->
    size (fixed_notation (static_cast_int right_char_count) (SFabs x))
      <= min_left_chars + right_char_count ->
    size (show_float min_left_chars right_char_count x)
      = min_left_chars + 1 + right_char_count.
Proof.
  intros m r x Hpos Hm Hfit. rewrite show_float_size by exact Hm.
  unfold min_left_chars_final.
  destruct (lt_zero x); cbn [andb sign_text].
  - change (size "-") with 1. destruct (N.ltb_spec 0 m); lia.
  - change (size EmptyString) with 0. lia.
Qed.

Lemma show_float_aligned_width_witness :
  size (show_float 4 3 neg_pi_d) = 4 + 1 + 3
  /\ size (show_float 4 3 pi_d) = 4 + 1 + 3.
Proof.
  split.
  - apply (show_float_aligned_width 4 3 neg_pi_d);
      vm_compute; try reflexivity; discriminate.
  - apply (show_float_aligned_width 4 3 pi_d);
      vm_compute; try reflexivity; discriminate.
Defined.

(** X3. For a finite number and at least one fractional digit,
    [min_left_chars] 0 and 1 give the same text, since a number always has
    one integer digit; for a negative number 2 gives that text too, the
    sign taking one of the two characters. *)
Theorem show_float_small_min_left :
  forall (right_char_count : N) (x : spec_float),
    is_finite x = true ->
    1 <= right_char_count ->
    right_char_count < 2 ^ 31 ->
    show_float 1 right_char_count x = show_float 0 right_char_count x
    /\ (lt_zero x = true ->
        show_float 2 right_char_count x = show_float 0 right_char_count x).
Proof.
  intros r x Hfin H1 Hr.
  assert (Hplain : forall m,
             min_left_chars_final m x <= 1 ->
             show_float m r x
             = sign_text (lt_zero x)
               ++ fixed_notation (static_cast_int r) (SFabs x)).
  { intros m Hm. rewrite show_float_unfold. f_equal.
    pose proof (fixed_notation_abs_size r x Hfin H1 Hr) as Hs.
    assert (Hr' : r < 2147483648) by exact Hr.
    rewrite size_t_wrap_small
      by (unfold modulus; change (2 ^ 64) with 18446744073709551616; lia).
    apply fill_left_long. lia. }
  split.
  - rewrite (Hplain 1), (Hplain 0); [reflexivity | |];
      etransitivity; try apply min_left_chars_final_le; lia.
  - intros Hneg. rewrite (Hplain 2), (Hplain 0); [reflexivity | |].
    + etransitivity; [apply min_left_chars_final_le | lia].
    + unfold min_left_chars_final. rewrite Hneg. vm_compute. discriminate.
Qed.

Lemma show_float_small_min_left_witness :
  show_float 1 3 neg_pi_d = show_float 0 3 neg_pi_d
  /\ show_float 2 3 neg_pi_d = show_float 0 3 neg_pi_d.
Proof.
  assert (Hf : is_finite neg_pi_d = true) by reflexivity.
  assert (H1 : 1 <= 3) by (vm_compute; discriminate).
  assert (Hr : 3 < 2 ^ 31) by (vm_compute; reflexivity).
  split.
  - exact (proj1 (show_float_small_min_left 3 neg_pi_d Hf H1 Hr)).
  - exact (proj2 (show_float_small_min_left 3 neg_pi_d Hf H1 Hr) eq_refl).
Defined.

(** X4. With [right_char_count = 0] and [min_left_chars + 1] within
    [std::size_t], the result for a finite number is digits only, sign
    apart: there is no decimal point, yet the padding
    still counts its character, so there is one digit more than the
    [min_left_chars] in effect. *)
Theorem show_float_no_fraction :
  forall (min_left_chars : N) (x : spec_float),
    is_finite x = true ->
    min_left_chars + 1 < modulus ->
    all_digits (strip_sign (show_float min_left_chars 0 x)) = true
    /\ min_left_chars_final min_left_chars x + 1
       <= size (strip_sign (show_float min_left_chars 0 x)).
Proof.
  intros m x Hfin Hm.
  assert (Hm0 : m + 1 + 0 < modulus) by (rewrite N.add_0_r; exact Hm).
  pose proof (show_float_size m 0 x Hm0) as Hsize.
  destruct (show_float_shape m 0 x Hfin eq_refl Hm0)
    as (D & F & E & HD & (c & rest & EC) & _ & _ & _).
  change (point_and 0 F) with EmptyString in E.
  rewrite Str.append_nil_r in E. rewrite E in *.
  assert (Hc : is_digit c = true).
  { rewrite EC in HD. simpl in HD. now apply andb_prop in HD as [Hc _]. }
  assert (Hstrip : strip_sign (sign_text (lt_zero x) ++ D) = D).
  { rewrite EC. now apply Reading.strip_sign_digit. }
  rewrite Hstrip. split; [exact HD|].
  rewrite Str.size_append in Hsize. lia.
Qed.

Lemma show_float_no_fraction_witness :
  all_digits (strip_sign (show_float 2 0 pi_d)) = true
  /\ min_left_chars_final 2 pi_d + 1 <= size (strip_sign (show_float 2 0 pi_d)).
Proof.
  apply (show_float_no_fraction 2 pi_d).
  - reflexivity.
  - vm_compute; reflexivity.
Defined.

(** X5. Zero of either sign, with at least one fractional digit, is
    rendered without a sign as [max min_left_chars 1] zeros, the point and
    [right_char_count] zeros. *)
Theorem show_float_zero :
  forall (s : bool) (min_left_chars right_char_count : N),
    1 <= right_char_count ->
    right_char_count < 2 ^ 31 ->
    min_left_chars + 1 + right_char_count < modulus ->
    show_float min_left_chars right_char_count (S754_zero s)
    = string_n (N.max min_left_chars 1) "0"
      ++ String "." (string_n right_char_count "0").
Proof.
  intros s m r H1 Hr Hm.
  rewrite show_float_unfold.
  replace (lt_zero (S754_zero s)) with false by (destruct s; reflexivity).
  replace (min_left_chars_final m (S754_zero s)) with m
    by (unfold min_left_chars_final; destruct s; reflexivity).
  cbn [sign_text append SFabs fixed_notation].
  rewrite Fixed.static_cast_int_small, Fixed.effective_precision_of_N
    by exact Hr.
  rewrite size_t_wrap_small by exact Hm.
  unfold fixed_text.
  change (0 / 10 ^ r) with 0. change (0 mod 10 ^ r) with 0.
  change (string_of_N 0) with "0".
  destruct (N.eqb_spec r 0) as [-> | _]; [lia|].
  rewrite low_digits_zero, Str.append_nil_r.
  rewrite Pad.fill_left_closed. cbn [append].
  assert (Hsize : size (String "0" (String "." (string_fill (N.to_nat r) "0")))
                  = 2 + r).
  { unfold size. cbn [String.length]. rewrite Str.length_fill. lia. }
  rewrite Hsize. unfold string_n at 1.
  rewrite Pad.string_fill_shift. unfold string_n.
  replace (S (N.to_nat (m + 1 + r - (2 + r)))) with (N.to_nat (N.max m 1))
    by lia.
  reflexivity.
Qed.

Lemma show_float_zero_witness :
  show_float 3 2 (S754_zero true)
  = string_n (N.max 3 1) "0" ++ String "." (string_n 2 "0").
Proof.
  apply (show_float_zero true 3 2).
  - vm_compute; discriminate.
  - vm_compute; reflexivity.
  - vm_compute; reflexivity.
Defined.

(** X6. With a width [min_left_chars + 1 + right_char_count] within
    [std::size_t], a NaN and the infinities are padded like numbers: zeros
    in front of ["nan"] or ["inf"] up to the width, and the sign of the negative
    infinity in front of the zeros; a NaN has no sign. *)
Theorem show_float_not_finite :
  forall min_left_chars right_char_count : N,
    min_left_chars + 1 + right_char_count < modulus ->
    show_float min_left_chars right_char_count S754_nan
      = string_n (min_left_chars + 1 + right_char_count - 3) "0" ++ "nan"
    /\ show_float min_left_chars right_char_count (S754_infinity false)
      = string_n (min_left_chars + 1 + right_char_count - 3) "0" ++ "inf"
    /\ show_float min_left_chars right_char_count (S754_infinity true)
      = "-" ++ string_n (N.max min_left_chars 1 + right_char_count - 3) "0"
            ++ "inf".
Proof.
  intros m r Hm. rewrite !show_float_unfold.
  unfold min_left_chars_final.
  change (lt_zero S754_nan) with false.
  change (lt_zero (S754_infinity false)) with false.
  change (lt_zero (S754_infinity true)) with true.
  cbn [andb sign_text SFabs fixed_notation].
  change (EmptyString ++ "inf") with "inf".
  rewrite !Pad.fill_left_closed.
  change (size "nan") with 3. change (size "inf") with 3.
  rewrite (size_t_wrap_small (m + 1 + r)) by exact Hm.
  split; [reflexivity|]. split; [reflexivity|].
  destruct (N.ltb_spec 0 m) as [Hpos | Hzero];
    rewrite size_t_wrap_small by lia; cbn [append];
    do 2 f_equal; unfold string_n; f_equal; lia.
Qed.

Lemma show_float_not_finite_witness :
  show_float 3 2 S754_nan = string_n (3 + 1 + 2 - 3) "0" ++ "nan"
  /\ show_float 3 2 (S754_infinity false)
     = string_n (3 + 1 + 2 - 3) "0" ++ "inf"
  /\ show_float 3 2 (S754_infinity true)
     = "-" ++ string_n (N.max 3 1 + 2 - 3) "0" ++ "inf".
Proof.
  apply (show_float_not_finite 3 2). vm_compute; reflexivity.
Defined.

(** ** [show_float_fill_left] *)

(** X7. For a number that is not negative, filling with ['0'] up to a
    width of at least [1 + right_char_count] gives what [show_float] gives
    when asked for the integer digits the width leaves. *)
Theorem show_float_fill_left_zero_filler :
  forall (min_size right_char_count : N) (x : spec_float),
    lt_zero x = false ->
    1 + right_char_count <= min_size ->
    min_size < modulus ->
    show_float_fill_left "0" min_size right_char_count x
    = show_float (min_size - 1 - right_char_count) right_char_count x.
Proof.
  intros w r x Hpos Hle Hw.
  unfold show_float_fill_left. rewrite !show_float_unfold.
  unfold min_left_chars_final. rewrite Hpos. cbn [andb sign_text append].
  rewrite !size_t_wrap_small by lia.
  rewrite Pad.fill_left_twice. f_equal. lia.
Qed.

Lemma show_float_fill_left_zero_filler_witness :
  show_float_fill_left "0" 8 3 pi_d = show_float (8 - 1 - 3) 3 pi_d.
Proof.
  apply (show_float_fill_left_zero_filler 8 3 pi_d).
  - reflexivity.
  - vm_compute; discriminate.
  - vm_compute; reflexivity.
Defined.

(** X8. For a negative number [show_float_fill_left] puts the filler in
    front of the sign: when the text is shorter than the width and the
    filler is not ['-'], the result does not begin with the sign, whereas
    the result of [show_float] always does. *)
Theorem show_float_fill_left_sign_inside :
  forall (filler : ascii) (min_size right_char_count : N) (x : spec_float),
    lt_zero x = true ->
    (filler =? "-")%char = false ->
    size (show_float 0 right_char_count x) < min_size ->
    starts_with_minus
      (show_float_fill_left filler min_size right_char_count x) = false
    /\ forall min_left_chars,
         starts_with_minus (show_float min_left_chars right_char_count x)
         = true.
Proof.
  intros c w r x Hneg Hc Hlt. split.
  - unfold show_float_fill_left. rewrite fill_left_short by exact Hlt.
    unfold string_n.
    destruct (N.to_nat (w - size (show_float 0 r x))) as [|k] eqn:Ek;
      [lia|].
    simpl. exact Hc.
  - intros m. now rewrite show_float_starts_with_minus.
Qed.

Lemma show_float_fill_left_sign_inside_witness :
  starts_with_minus (show_float_fill_left "0" 8 3 neg_pi_d) = false
  /\ forall min_left_chars,
       starts_with_minus (show_float min_left_chars 3 neg_pi_d) = true.
Proof.
  apply (show_float_fill_left_sign_inside "0" 8 3 neg_pi_d).
  - reflexivity.
  - reflexivity.
  - vm_compute; reflexivity.
Defined.

(** ** Wrapped containers, line by line *)

Module Join.

Lemma join_head_prefix (sep pre a : string) (l : list string) :
  join sep ((pre ++ a) :: l) = pre ++ join sep (a :: l).
Proof.
  destruct l as [|b l]; cbn [join]; [reflexivity|].
  now rewrite Str.append_assoc.
Qed.

Lemma join_cons (sep a b : string) (l : list string) :
  join sep (a :: b :: l) = a ++ sep ++ join sep (b :: l).
Proof. reflexivity. Qed.

Lemma join_app (sep : string) (A B : list string) :
  A <> [] -> B <> [] ->
  join sep (A ++ B) = join sep A ++ sep ++ join sep B.
Proof.
  intros HA HB. induction A as [|a A IH]; [congruence|]. clear HA.
  destruct A as [|a' A].
  - destruct B as [|b B]; [congruence | reflexivity].
  - change ((a :: a' :: A) ++ B)%list with (a :: a' :: (A ++ B))%list.
    rewrite !join_cons.
    change (a' :: (A ++ B))%list with ((a' :: A) ++ B)%list.
    rewrite IH by discriminate.
    now rewrite !Str.append_assoc.
Qed.

End Join.

Module Split.

Lemma split_every_fuel_nil {T : Type} (fuel n : nat) :
  split_every_fuel fuel n (@nil T) = [].
Proof. destruct fuel; reflexivity. Qed.

Lemma skipn_cons_length {T : Type} (n : nat) (t : list T) (r : T)
    (rs : list T) :
  skipn n t = r :: rs ->
  List.length (firstn n t) = n
  /\ (List.length (r :: rs) + n = List.length t)%nat.
Proof.
  intros E. pose proof (length_skipn n t) as Hs. rewrite E in Hs.
  cbn [List.length] in *. rewrite length_firstn. lia.
Qed.

(** The groups put together again are the container. *)
Lemma concat_split_every_fuel {T : Type} (fuel n : nat) (xs : list T) :
  (0 < n)%nat -> (List.length xs <= fuel)%nat ->
  List.concat (split_every_fuel fuel n xs) = xs.
Proof.
  intros Hn. revert xs.
  induction fuel as [|fuel IH]; intros xs Hlen.
  - destruct xs; [reflexivity | cbn [List.length] in Hlen; lia].
  - destruct xs as [|x t]; [reflexivity|].
    cbn [split_every_fuel List.concat].
    rewrite IH, firstn_skipn; [reflexivity|].
    rewrite length_skipn. cbn [List.length] in *. lia.
Qed.

(** No group has more than [n] elements. *)
Lemma split_every_fuel_bound {T : Type} (fuel n : nat) (xs : list T) :
  Forall (fun line => (List.length line <= n)%nat)
         (split_every_fuel fuel n xs).
Proof.
  revert xs. induction fuel as [|fuel IH]; intros xs; [constructor|].
  destruct xs as [|x t]; [constructor|].
  cbn [split_every_fuel]. constructor; [apply firstn_le_length | apply IH].
Qed.

Lemma split_every_fuel_one {T : Type} (fuel : nat) (xs : list T) :
  (List.length xs <= fuel)%nat ->
  split_every_fuel fuel 1 xs = map (fun x => [x]) xs.
Proof.
  revert xs. induction fuel as [|fuel IH]; intros xs Hlen.
  - destruct xs; [reflexivity | cbn [List.length] in Hlen; lia].
  - destruct xs as [|x t]; [reflexivity|].
    cbn [split_every_fuel firstn skipn map]. rewrite IH; [reflexivity|].
    cbn [List.length] in Hlen. lia.
Qed.

End Split.

Section Lines.

Context {T : Type} `{Show T}.

Lemma rendered_from_cons (prefix : string) (every_n : N) (k : nat) (x : T)
    (xs : list T) :
  rendered_from prefix every_n k (x :: xs)
  = rendered_elem prefix every_n (N.of_nat k) x
    :: rendered_from prefix every_n (S k) xs.
Proof. reflexivity. Qed.

Lemma rendered_from_app (prefix : string) (every_n : N) (k : nat)
    (A B : list T) :
  rendered_from prefix every_n k (A ++ B)
  = (rendered_from prefix every_n k A
     ++ rendered_from prefix every_n (k + List.length A) B)%list.
Proof.
  revert k. induction A as [|a A IH]; intros k.
  - cbn [app List.length]. now rewrite Nat.add_0_r.
  - rewrite <- app_comm_cons. cbn [List.length].
    rewrite !rendered_from_cons, IH.
    now rewrite Nat.add_succ_r.
Qed.

(** The text of the element at a multiple of [every_n]: after a line
    break, but for the index 0. *)
Lemma rendered_elem_multiple (prefix : string) (every_n : N) (k : nat)
    (x : T) :
  every_n <> 0 ->
  N.of_nat k mod every_n = 0 ->
  rendered_elem prefix every_n (N.of_nat k) x
  = (if N.of_nat k =? 0 then EmptyString else line_break prefix) ++ show x.
Proof.
  intros Hn Hk. unfold rendered_elem, positive_multiple.
  apply N.eqb_neq in Hn. rewrite Hn, Hk.
  destruct (N.of_nat k =? 0); reflexivity.
Qed.

(** Behind a multiple of [every_n], the elements before the next multiple
    have their plain text. *)
Lemma rendered_from_inside (prefix : string) (n : nat) (ys : list T) :
  forall k j : nat,
    N.of_nat k mod N.of_nat n = N.of_nat j ->
    (j + List.length ys < n)%nat ->
    rendered_from prefix (N.of_nat n) (S k) ys = map show ys.
Proof.
  induction ys as [|y ys IH]; intros k j Hk Hj; [reflexivity|].
  cbn [List.length] in Hj.
  assert (Hnext : N.of_nat (S k) mod N.of_nat n = N.of_nat (S j)).
  { replace (N.of_nat (S k)) with (N.of_nat k + 1) by lia.
    rewrite <- N.Div0.add_mod_idemp_l, Hk.
    replace (N.of_nat j + 1) with (N.of_nat (S j)) by lia.
    apply N.mod_small. lia. }
  rewrite rendered_from_cons, (IH (S k) (S j) Hnext) by lia.
  cbn [map]. f_equal.
  unfold rendered_elem, positive_multiple. rewrite Hnext.
  replace (N.of_nat (S j) =? 0) with false
    by (symmetry; apply N.eqb_neq; lia).
  now rewrite !andb_false_r.
Qed.

(** From a multiple of [every_n] on, the joined texts are the lines joined
    with separator and line break. *)
Lemma join_rendered_lines (separator prefix : string) (n : nat) :
  (0 < n)%nat ->
  forall (fuel k : nat) (xs : list T),
    N.of_nat k mod N.of_nat n = 0 ->
    (List.length xs <= fuel)%nat ->
    xs <> [] ->
    join separator (rendered_from prefix (N.of_nat n) k xs)
    = (if N.of_nat k =? 0 then EmptyString else line_break prefix)
      ++ join (separator ++ line_break prefix)
           (map (fun line => join separator (map show line))
                (split_every_fuel fuel n xs)).
Proof.
  intros Hn. destruct n as [|n']; [lia|].
  assert (Hn0 : N.of_nat (S n') <> 0) by lia.
  induction fuel as [|fuel IH]; intros k xs Hk Hlen Hxs.
  - destruct xs; [congruence | cbn [List.length] in Hlen; lia].
  - destruct xs as [|x t]; [congruence|]. clear Hxs.
    cbn [List.length] in Hlen.
    cbn [split_every_fuel firstn skipn map].
    rewrite <- (firstn_skipn n' t) at 1.
    rewrite rendered_from_cons, rendered_from_app.
    rewrite (rendered_from_inside prefix (S n') (firstn n' t) k 0)
      by (try exact Hk; pose proof (firstn_le_length n' t); lia).
    rewrite (rendered_elem_multiple prefix _ k x Hn0 Hk).
    set (pre := if N.of_nat k =? 0 then EmptyString else line_break prefix).
    destruct (skipn n' t) as [|r rs] eqn:Erest.
    + rewrite Split.split_every_fuel_nil.
      change (rendered_from prefix (N.of_nat (S n'))
                (S k + List.length (firstn n' t)) [])
        with (@nil string).
      rewrite app_nil_r, Join.join_head_prefix. reflexivity.
    + destruct (Split.skipn_cons_length n' t r rs Erest) as [Hfirst Hrest].
      rewrite Hfirst.
      assert (Hk2 : N.of_nat (S k + n') mod N.of_nat (S n') = 0).
      { replace (N.of_nat (S k + n'))
          with (N.of_nat k + 1 * N.of_nat (S n')) by lia.
        now rewrite N.Div0.mod_add. }
      assert (Hlen2 : (List.length (r :: rs) <= fuel)%nat) by lia.
      specialize (IH (S k + n')%nat (r :: rs) Hk2 Hlen2 ltac:(discriminate)).
      replace (N.of_nat (S k + n') =? 0) with false in IH
        by (symmetry; apply N.eqb_neq; lia).
      rewrite app_comm_cons.
      rewrite Join.join_app;
        [|discriminate | rewrite rendered_from_cons; discriminate].
      rewrite IH, Join.join_head_prefix.
      destruct fuel as [|fuel']; [cbn [List.length] in Hlen2; lia|].
      cbn [split_every_fuel map]. rewrite Join.join_cons.
      now rewrite !Str.append_assoc.
Qed.

End Lines.

(** X9. With [0 < every_n] and a container whose size fits [std::size_t],
    the result is the prefix, the lines joined with the separator followed
    by the line break, and the suffix, where the lines are the elements in
    groups of [every_n], each group joined with the separator: the groups
    put together are the container and none has more than [every_n]
    elements. *)
Theorem show_cont_lines :
  forall (T : Type) (S : Show T) (separator prefix suffix : string)
         (xs : list T) (every_n : N),
    0 < every_n ->
    N.of_nat (List.length xs) < modulus ->
    show_cont_with_frame_and_newlines separator prefix suffix xs every_n
    = prefix
      ++ join (separator ++ line_break prefix)
           (map (fun line => join separator (map show line))
                (split_every (N.to_nat every_n) xs))
      ++ suffix
    /\ List.concat (split_every (N.to_nat every_n) xs) = xs
    /\ Forall (fun line => (List.length line <= N.to_nat every_n)%nat)
         (split_every (N.to_nat every_n) xs).
Proof.
  intros T S separator prefix suffix xs every_n Hpos Hlen.
  split; [|split].
  - unfold show_cont_with_frame_and_newlines.
    destruct (N.eqb_spec every_n 0) as [-> | Hn]; [lia|].
    change 0 with (N.of_nat 0) at 1.
    rewrite collect_wrapped_rendered by assumption.
    rewrite app_nil_l. f_equal. f_equal.
    destruct xs as [|x t]; [reflexivity|].
    pose proof (N2Nat.id every_n) as E.
    remember (N.to_nat every_n) as n eqn:En. rewrite <- E.
    assert (Hn' : (0 < n)%nat) by lia.
    rewrite (join_rendered_lines separator prefix n Hn'
               (List.length (x :: t)) 0 (x :: t));
      [reflexivity | reflexivity | lia | discriminate].
  - apply Split.concat_split_every_fuel; lia.
  - apply Split.split_every_fuel_bound.
Qed.

Lemma show_cont_lines_witness :
  show_cont_with_frame_and_newlines "," "(" ")" [1; 2; 3; 4; 5]%Z 2
  = "("
    ++ join ("," ++ line_break "(")
         (map (fun line => join "," (map show line))
              [[1; 2]; [3; 4]; [5]]%Z)
    ++ ")".
Proof.
  apply (show_cont_lines Z _ "," "(" ")" [1; 2; 3; 4; 5]%Z 2);
    vm_compute; reflexivity.
Defined.

(** X10. With [every_n = 1] every element stands on a line of its own:
    the result is that of [show_cont_with_frame] with the line break added
    to the separator. *)
Theorem show_cont_one_per_line :
  forall (T : Type) (S : Show T) (separator prefix suffix : string)
         (xs : list T),
    N.of_nat (List.length xs) < modulus ->
    show_cont_with_frame_and_newlines separator prefix suffix xs 1
    = show_cont_with_frame (separator ++ line_break prefix) prefix suffix xs.
Proof.
  intros T S separator prefix suffix xs Hlen.
  unfold show_cont_with_frame, show_cont_with_frame_and_newlines.
  change (1 =? 0) with false. change (0 =? 0) with true. cbv iota.
  change 0 with (N.of_nat 0) at 1.
  rewrite collect_wrapped_rendered by (try assumption; discriminate).
  rewrite collect_plain_map, !app_nil_l. f_equal. f_equal.
  destruct xs as [|x t]; [reflexivity|].
  change 1 with (N.of_nat 1).
  rewrite (join_rendered_lines separator prefix 1 ltac:(lia)
             (List.length (x :: t)) 0 (x :: t));
    [| reflexivity | lia | discriminate].
  rewrite Split.split_every_fuel_one by lia.
  rewrite map_map. reflexivity.
Qed.

Lemma show_cont_one_per_line_witness :
  show_cont_with_frame_and_newlines "," "(" ")" [1; 2; 3]%Z 1
  = show_cont_with_frame ("," ++ line_break "(") "(" ")" [1; 2; 3]%Z.
Proof.
  apply (show_cont_one_per_line Z _ "," "(" ")" [1; 2; 3]%Z).
  vm_compute; reflexivity.
Defined.

(** X11. The frame is put around the joined elements, and the joined text
    of two containers that are not empty, one after the other, is the text
    of the first, the separator and the text of the second. *)
Theorem show_cont_with_frame_app :
  forall (T : Type) (S : Show T) (separator prefix suffix : string)
         (xs ys : list T),
    xs <> [] ->
    ys <> [] ->
    show_cont_with_frame separator prefix suffix (xs ++ ys)
    = prefix
      ++ show_cont_with_frame separator EmptyString EmptyString xs
      ++ separator
      ++ show_cont_with_frame separator EmptyString EmptyString ys
      ++ suffix.
Proof.
  intros T S separator prefix suffix xs ys Hxs Hys.
  unfold show_cont_with_frame, show_cont_with_frame_and_newlines.
  change (0 =? 0) with true. cbv iota.
  rewrite !collect_plain_map, !app_nil_l. cbn [append].
  rewrite !Str.append_nil_r, map_app.
  rewrite Join.join_app
    by (intros E; apply map_eq_nil in E; contradiction).
  now rewrite !Str.append_assoc.
Qed.

Lemma show_cont_with_frame_app_witness :
  show_cont_with_frame ", " "[" "]" ([1; 2] ++ [3])%list%Z
  = "[" ++ show_cont_with_frame ", " EmptyString EmptyString [1; 2]%Z
        ++ ", "
        ++ show_cont_with_frame ", " EmptyString EmptyString [3]%Z
        ++ "]".
Proof.
  apply (show_cont_with_frame_app Z _ ", " "[" "]" [1; 2]%Z [3]%Z);
    discriminate.
Defined.

(** ** Padded [show] *)

(** X12. [show_fill_left] and [show_fill_right] return a string of
    [max min_size (size of show<T>(x))] characters, where [show<T>(x)] is
    the primary template of [show], the text [operator<<] writes for [x]:
    that text with copies of the filler in front or behind, never a shorter
    one. *)
Theorem show_fill_sizes :
  forall (T : Type) (St : Streamable T) (filler : ascii) (min_size : N)
         (x : T),
    size (show_fill_left filler min_size x)
    = N.max min_size (size (show_template x))
    /\ size (show_fill_right filler min_size x)
       = N.max min_size (size (show_template x))
    /\ show_fill_left filler min_size x
       = string_n (min_size - size (show_template x)) filler
         ++ show_template x
    /\ show_fill_right filler min_size x
       = show_template x
         ++ string_n (min_size - size (show_template x)) filler.
Proof.
  intros T St c w x. unfold show_fill_left, show_fill_right.
  split; [apply fill_left_size|].
  split; [apply Pad.fill_right_size|].
  split; [apply Pad.fill_left_closed | apply Pad.fill_right_closed].
Qed.

(** X13. Padding a string that is padded already changes nothing:
    [show_fill_left] and [show_fill_right] at the same filler and width
    are idempotent on strings. *)
Theorem show_fill_idempotent :
  forall (filler : ascii) (min_size : N) (s : string),
    show_fill_left filler min_size (show_fill_left filler min_size s)
    = show_fill_left filler min_size s
    /\ show_fill_right filler min_size (show_fill_right filler min_size s)
       = show_fill_right filler min_size s.
Proof.
  intros c w s.
  unfold show_fill_left, show_fill_right, show_template, stream_out,
    stream_string.
  split.
  - apply fill_left_long. rewrite fill_left_size. lia.
  - unfold fill_right at 1.
    destruct (N.leb_spec w (size (fill_right c w s))) as [_ | Hlt];
      [reflexivity|].
    rewrite Pad.fill_right_size in Hlt. lia.
Qed.

(** ** Tags *)

(** X14. The tags tell the cases apart whatever the payloads show as: the
    text of a present value is never that of the absent one, and the text
    of an ok value is never that of an error. *)
Theorem show_tags_distinct :
  (forall (T : Type) (S : Show T) (v : T),
      show_maybe (just v) <> show_maybe (@nothing T))
  /\ (forall (Ok Error : Type) (SO : Show Ok) (SE : Show Error)
             (v : Ok) (e : Error),
        show_result (@ok Ok Error v) <> show_result (@error Ok Error e)).
Proof.
  split.
  - intros T S v. cbn. discriminate.
  - intros Ok Error SO SE v e. cbn. discriminate.
Qed.

(** ** [show_float_fill_left], the fraction *)

Lemma after_point_fill (k : nat) (c : ascii) (s : string) :
  (c =? ".")%char = false ->
  after_point (string_fill k c ++ s) = after_point s.
Proof.
  intros Hc. induction k as [|k IH]; [reflexivity|].
  cbn [string_fill append after_point]. now rewrite Hc.
Qed.

(** X15. [show_float_fill_left] never shortens the text of the number: the
    result has [max min_size (size of the text)] characters, and for a
    finite number and a filler that is not the point it still has exactly
    [right_char_count] digits behind the decimal point. *)
Theorem show_float_fill_left_fraction :
  forall (filler : ascii) (min_size right_char_count : N) (x : spec_float),
    is_finite x = true ->
    right_char_count < 2 ^ 31 ->
    (filler =? ".")%char = false ->
    size (show_float_fill_left filler min_size right_char_count x)
    = N.max min_size (size (show_float 0 right_char_count x))
    /\ size (fraction_part
               (show_float_fill_left filler min_size right_char_count x))
       = right_char_count
    /\ all_digits
         (fraction_part
            (show_float_fill_left filler min_size right_char_count x))
       = true.
Proof.
  intros c w r x Hfin Hr Hc.
  unfold show_float_fill_left. split; [apply fill_left_size|].
  rewrite Pad.fill_left_closed. unfold fraction_part, string_n.
  rewrite after_point_fill by exact Hc.
  assert (Hm : 0 + 1 + r < modulus).
  { assert (Hr' : r < 2147483648) by exact Hr.
    unfold modulus. change (2 ^ 64) with 18446744073709551616. lia. }
  destruct (show_float_shape 0 r x Hfin Hr Hm)
    as (D & F & -> & HD & _ & _ & HF & HsF).
  rewrite Reading.after_point_sign, Reading.after_point_digits by exact HD.
  unfold point_and. destruct (N.eqb_spec r 0) as [-> | _]; cbn [after_point].
  - split; reflexivity.
  - change (("." =? ".")%char) with true. cbv iota. split; assumption.
Qed.

Lemma show_float_fill_left_fraction_witness :
  size (show_float_fill_left " " 8 3 neg_pi_d)
  = N.max 8 (size (show_float 0 3 neg_pi_d))
  /\ size (fraction_part (show_float_fill_left " " 8 3 neg_pi_d)) = 3
  /\ all_digits (fraction_part (show_float_fill_left " " 8 3 neg_pi_d))
     = true.
Proof.
  apply (show_float_fill_left_fraction " " 8 3 neg_pi_d).
  - reflexivity.
  - vm_compute; reflexivity.
  - reflexivity.
Defined.
